(** * notero-notes: the sync job (src/content/sync/sync-job.ts)

    A shallow embedding of the sync orchestration: [performSyncJob],
    [prepareSyncJob], [getCitationFormat], [getPageTitleFormat], the
    [ItemSyncError] wrapper and the [SyncJob] class ([sanitize],
    [syncItemAndNotes], [perform], [syncRegularItem],
    [saveItemToDatabase]).

    The job is thin orchestration over collaborators that live outside
    this file (the Notion SDK client, the Zotero host, the property
    builder, the progress window, the DOM parser).  They are taken as an
    interface, [Collaborators], over an abstract world [W]; every call
    that the TypeScript awaits or that reaches the user is recorded in a
    trace of [Event]s, in program order.  Asynchronous code is awaited
    at every step, so a computation is a function from a state to a
    result (a value or a thrown error) and the next state. *)

From Stdlib Require Import Ascii String.
From stdpp Require Import base gmap strings list pretty.

Open Scope string_scope.
Open Scope list_scope.

(** ** Values of the host *)

(** A [Zotero.Item], as far as the job reads it: [item.id],
    [item.isNote()], [item.parentID] (absent on a top-level item),
    [item.getNotes(false)] and [item.getNote()]. *)
Record Item := mkItem {
  item_id : Z;
  isNote : bool;
  parentID : option Z;
  getNotes : list Z;
  getNote : string
}.

#[global] Instance Item_eq_dec : EqDecision Item.
Proof. solve_decision. Defined.

(** What [Zotero.Prefs.get] can return. *)
Inductive PrefValue :=
| PrefString (s : string)
| PrefNumber (n : Z)
| PrefBool (b : bool)
| PrefUndefined.

(** [PageTitleFormat]: the job names only [itemTitle]; the other members
    of the enum are kept by their name. *)
Inductive PageTitleFormat :=
| itemTitle
| otherTitleFormat (name : string).

(** ** Thrown values *)

(** An [Error] object as thrown by a collaborator or by [new Error(msg)]. *)
Record ErrorObject := mkError {
  err_name : string;
  err_message : string;
  err_code : option string
}.

(** [class ItemSyncError extends Error]: the wrapper keeps the cause and
    the item. *)
Inductive Thrown :=
| JsError (e : ErrorObject)
| ItemSyncError (cause : Thrown) (item : Item).

#[global] Instance ErrorObject_eq_dec : EqDecision ErrorObject.
Proof. solve_decision. Defined.

#[global] Instance Thrown_eq_dec : EqDecision Thrown.
Proof. solve_decision. Defined.

(** [new Error(message)] *)
Definition new_Error (message : string) : Thrown :=
  JsError {| err_name := "Error"; err_message := message; err_code := None |}.

(** [Error.prototype.toString]: the name, the message, or both joined by
    a colon. *)
Definition error_toString (e : ErrorObject) : string :=
  if bool_decide (err_name e = "") then err_message e
  else if bool_decide (err_message e = "") then err_name e
  else err_name e +:+ ": " +:+ err_message e.

(** [String(cause)]; the message of an [ItemSyncError] is the one its
    constructor passes to [super]. *)
Fixpoint String_of (t : Thrown) : string :=
  match t with
  | JsError e => error_toString e
  | ItemSyncError cause item =>
      "ItemSyncError: Failed to sync item with ID " +:+ pretty (item_id item)
        +:+ " due to " +:+ String_of cause
  end.

Inductive Result (A : Type) :=
| Ok (a : A)
| Throw (e : Thrown).
Arguments Ok {A} a.
Arguments Throw {A} e.

(** [APIErrorCode.ObjectNotFound] of the Notion SDK. *)
Definition ObjectNotFound : string := "object_not_found".

(** [s || d] on strings: the empty string is falsy. *)
Definition str_or (s d : string) : string :=
  if bool_decide (s = "") then d else s.

(** [s || d] on a string that may be [null] or [undefined]. *)
Definition opt_str_or (s : option string) (d : string) : string :=
  match s with
  | Some s => str_or s d
  | None => d
  end.

(** [if (pageID)] on [string | undefined]: only a non-empty string is
    truthy. *)
Definition truthy_str (s : option string) : option string :=
  match s with
  | Some s => if bool_decide (s = "") then None else Some s
  | None => None
  end.

Section SyncJob.

(** [W] is the world outside the job: the Zotero data store and
    preferences and the remote workspace.  [Props] is the property set
    of a page, [DbProps] the [DatabaseProperties] of the database,
    [Response] a [CreatePageResponse & UpdatePageResponse]. *)
Context {W Props DbProps Response : Type}.

(** The collaborators of the job.  A call that is awaited, or that
    writes to the host, takes the world and returns a result and the
    next world; a read returns its value. *)
Record Collaborators := mkCollaborators {
  (** [Zotero.Items.get(id)], [false] when the id does not resolve; the
      argument may be an absent [parentID] *)
  Zotero_Items_get : option Z → W → option Item;
  (** [Zotero.Prefs.get('export.quickCopy.setting')] *)
  Zotero_Prefs_get_quickCopy : W → PrefValue;
  (** [getNoteroPref(NoteroPref.pageTitleFormat)] *)
  getNoteroPref_pageTitleFormat : W → option PageTitleFormat;
  (** [getRequiredNoteroPref(NoteroPref.notionDatabaseID)] *)
  getRequiredNoteroPref_notionDatabaseID : W → Result string;
  (** [getNotionClient(window)] *)
  getNotionClient : W → Result unit;
  (** [notion.databases.retrieve({ database_id }).properties] *)
  databases_retrieve : string → W → Result DbProps * W;
  (** [getNotionPageID(item)] *)
  getNotionPageID : Item → W → option string;
  (** [buildProperties({ citationFormat, databaseProperties, item,
      pageTitleFormat })]; the builder reads [item.zotero_note] *)
  buildProperties :
    string → DbProps → Item → option string → PageTitleFormat →
    W → Result Props * W;
  (** [notion.pages.update({ page_id, properties })] *)
  pages_update : string → Props → W → Result Response * W;
  (** [notion.pages.create({ parent: { database_id }, properties })] *)
  pages_create : string → Props → W → Result Response * W;
  (** [saveNotionTag(item)] *)
  saveNotionTag : Item → W → Result unit * W;
  (** [saveNotionLinkAttachment(item, appURL)] *)
  saveNotionLinkAttachment : Item → string → W → Result unit * W;
  (** [isFullPage(response)] and [response.url] *)
  isFullPage : Response → bool;
  response_url : Response → string;
  (** [convertWebURLToAppURL(url)] *)
  convertWebURLToAppURL : string → string;
  (** [isNotionErrorWithCode(error, code)] *)
  isNotionErrorWithCode : Thrown → string → bool;
  (** [hasErrorStack(cause)], with [cause.stack] when it holds *)
  hasErrorStack : Thrown → option string;
  (** [getDOMParser().parseFromString(html, 'text/html').body.textContent] *)
  body_textContent : string → option string;
  (** [APA_STYLE] of [../constants] *)
  APA_STYLE : string
}.

Context (C : Collaborators).

(** ** Events *)

Inductive LogLevel := LogInfo | LogError.

Inductive Event :=
| EvLog (message : string) (level : LogLevel)
| EvNewProgressWindow (itemCount : nat)
| EvUpdateText (step : nat)
| EvUpdateProgress (step : nat)
| EvComplete
| EvFail (errorMessage : string) (failedItem : option Item)
| EvGetNotionClient
| EvDatabasesRetrieve (database_id : string)
| EvBuildProperties (item : Item) (zotero_note : option string)
| EvPagesUpdate (page_id : string) (properties : Props)
| EvPagesCreate (database_id : string) (properties : Props)
| EvSaveNotionTag (item : Item)
| EvSaveNotionLinkAttachment (item : Item) (appURL : string).

(** ** State and the computation monad *)

(** [zotero_note] holds the transient [item.zotero_note] field of the
    item objects; the host hands out one object per item id, so the
    field is keyed by the id. *)
Record State := mkState {
  world : W;
  zotero_note : gmap Z string;
  trace : list Event
}.

Definition M (A : Type) : Type := State → Result A * State.

#[global] Instance M_ret : MRet M := λ A a s, (Ok a, s).

#[global] Instance M_bind : MBind M := λ A B f m s,
  match m s with
  | (Ok a, s') => f a s'
  | (Throw e, s') => (Throw e, s')
  end.

Definition throw {A} (e : Thrown) : M A := λ s, (Throw e, s).

(** [try { m } catch (error) { handler error }] *)
Definition try_catch {A} (m : M A) (handler : Thrown → M A) : M A := λ s,
  match m s with
  | (Ok a, s') => (Ok a, s')
  | (Throw e, s') => handler e s'
  end.

(** A read of the world. *)
Definition read {A} (f : W → A) : M A := λ s, (Ok (f (world s)), s).

(** A read that can throw. *)
Definition read_or_throw {A} (f : W → Result A) : M A :=
  λ s, (f (world s), s).

(** The state once the world has moved to [w] and the events [evs] were
    recorded. *)
Definition advance (s : State) (w : W) (evs : list Event) : State :=
  {| world := w; zotero_note := zotero_note s; trace := trace s ++ evs |}.

(** A call that leaves the world alone (logging, the progress window). *)
Definition emit (ev : Event) : M unit := λ s,
  (Ok tt, advance s (world s) [ev]).

(** A call to a collaborator: the event is recorded when the call is
    issued, whatever its result. *)
Definition call {A} (ev : Event) (f : W → Result A * W) : M A := λ s,
  let '(r, w') := f (world s) in (r, advance s w' [ev]).

(** The state once [item.zotero_note = text] has run. *)
Definition with_note (s : State) (item : Item) (text : string) : State :=
  {| world := world s;
     zotero_note := <[item_id item := text]> (zotero_note s);
     trace := trace s |}.

(** [item.zotero_note = text] *)
Definition set_zotero_note (item : Item) (text : string) : M unit := λ s,
  (Ok tt, with_note s item text).

Definition get_zotero_note (item : Item) : M (option string) := λ s,
  (Ok (zotero_note s !! item_id item), s).

Definition log (message : string) (level : LogLevel) : M unit :=
  emit (EvLog message level).

(** ** The job *)

(** [SyncJobParams]; the client handle and the progress window are the
    collaborators themselves. *)
Record SyncJobParams := mkSyncJob {
  citationFormat : string;
  databaseID : string;
  databaseProperties : DbProps;
  items : list Item;
  pageTitleFormat : PageTitleFormat
}.

(** [getCitationFormat] *)
Definition getCitationFormat (w : W) : string :=
  match Zotero_Prefs_get_quickCopy C w with
  | PrefString format => if bool_decide (format = "") then APA_STYLE C else format
  | _ => APA_STYLE C
  end.

(** [getPageTitleFormat] *)
Definition getPageTitleFormat (w : W) : PageTitleFormat :=
  match getNoteroPref_pageTitleFormat C w with
  | Some f => f
  | None => itemTitle
  end.

(** [retrieveDatabaseProperties] *)
Definition retrieveDatabaseProperties (databaseID : string) : M DbProps :=
  call (EvDatabasesRetrieve databaseID) (databases_retrieve C databaseID).

(** [prepareSyncJob] *)
Definition prepareSyncJob (items : list Item) : M SyncJobParams :=
  _ ← call EvGetNotionClient (λ w, (getNotionClient C w, w));
  databaseID ← read_or_throw (getRequiredNoteroPref_notionDatabaseID C);
  databaseProperties ← retrieveDatabaseProperties databaseID;
  citationFormat ← read getCitationFormat;
  pageTitleFormat ← read getPageTitleFormat;
  mret {| citationFormat := citationFormat;
          databaseID := databaseID;
          databaseProperties := databaseProperties;
          items := items;
          pageTitleFormat := pageTitleFormat |}.

(** [SyncJob.sanitize] *)
Definition sanitize (html : string) : string :=
  opt_str_or (body_textContent C html) "".

(** The separator appended after each note. *)
Definition note_separator : string :=
  String "010"%char ("---" +:+ String "010"%char "").

(** The loop of [syncItemAndNotes] that builds [text]. *)
Fixpoint collect_notes (w : W) (noteIDs : list Z) (text : string) : string :=
  match noteIDs with
  | [] => text
  | noteID :: rest =>
      match Zotero_Items_get C (Some noteID) w with
      | Some noteItem =>
          collect_notes w rest
            ((text +:+ str_or (getNote noteItem) "") +:+ note_separator)
      | None => collect_notes w rest text
      end
  end.

(** [SyncJob.saveItemToDatabase] *)
Definition saveItemToDatabase (job : SyncJobParams) (item : Item)
  : M Response :=
  pageID ← read (getNotionPageID C item);
  note ← get_zotero_note item;
  properties ← call (EvBuildProperties item note)
    (buildProperties C (citationFormat job) (databaseProperties job)
       item note (pageTitleFormat job));
  updated ← match truthy_str pageID with
            | Some pageID =>
                try_catch
                  (response ← call (EvPagesUpdate pageID properties)
                     (pages_update C pageID properties);
                   mret (Some response))
                  (λ error,
                     if negb (isNotionErrorWithCode C error ObjectNotFound)
                     then throw error
                     else mret None)
            | None => mret None
            end;
  match updated with
  | Some response => mret response
  | None =>
      call (EvPagesCreate (databaseID job) properties)
        (pages_create C (databaseID job) properties)
  end.

(** The remedy named by the error of [syncRegularItem]. *)
Definition read_capability_instruction : string :=
  "Please ensure that the " +:+ String "034"%char "read content" +:+
  String "034"%char " capability is enabled " +:+
  "for the Notero integration at www.notion.so/my-integrations.".

Definition read_capability_message : string :=
  "Failed to create Notion link attachment. " +:+
  "This will result in duplicate Notion pages. " +:+
  read_capability_instruction.

(** [SyncJob.syncRegularItem] *)
Definition syncRegularItem (job : SyncJobParams) (item : Item) : M unit :=
  response ← saveItemToDatabase job item;
  _ ← call (EvSaveNotionTag item) (saveNotionTag C item);
  if isFullPage C response then
    let appURL := convertWebURLToAppURL C (response_url C response) in
    call (EvSaveNotionLinkAttachment item appURL)
      (saveNotionLinkAttachment C item appURL)
  else
    throw (new_Error read_capability_message).

(** [SyncJob.syncItemAndNotes] *)
Definition syncItemAndNotes (job : SyncJobParams) (item : Item) : M unit :=
  text ← read (λ w, collect_notes w (getNotes item) "");
  _ ← set_zotero_note item (sanitize text);
  syncRegularItem job item.

(** The body of the [try] block of [perform]. *)
Definition sync_entry (job : SyncJobParams) (item : Item) : M unit :=
  if isNote item then
    parent ← read (Zotero_Items_get C (parentID item));
    match parent with
    | Some parent => syncItemAndNotes job parent
    | None => mret tt
    end
  else syncItemAndNotes job item.

(** The log line that opens the turn of the loop for [item]. *)
Definition syncing_message (job : SyncJobParams) (index : nat) (item : Item)
  : string :=
  "Syncing item " +:+ pretty (index + 1) +:+ " of " +:+
  pretty (length (items job)) +:+ " with ID " +:+ pretty (item_id item).

(** One turn of the loop of [perform], for the entry at [index]. *)
Definition perform_step (job : SyncJobParams) (index : nat) (item : Item)
  : M unit :=
  let step := index + 1 in
  _ ← log (syncing_message job index item) LogInfo;
  _ ← emit (EvUpdateText step);
  _ ← try_catch (sync_entry job item)
        (λ error, throw (ItemSyncError error item));
  emit (EvUpdateProgress step).

(** The loop of [perform] over [this.items.entries()], from [index]. *)
Fixpoint perform_from (job : SyncJobParams) (index : nat)
    (entries : list Item) : M unit :=
  match entries with
  | [] => mret tt
  | item :: rest =>
      _ ← perform_step job index item;
      perform_from job (S index) rest
  end.

(** [SyncJob.perform] *)
Definition perform (job : SyncJobParams) : M unit :=
  perform_from job 0 (items job).

(** [Zotero.Items.get(Array.from(itemIDs))]: the items that resolve,
    in the order of the ids. *)
Definition Zotero_Items_get_all (itemIDs : list Z) (w : W) : list Item :=
  omap (λ itemID, Zotero_Items_get C (Some itemID) w) itemIDs.

(** The [catch] block of [performSyncJob]. *)
Definition report_failure (error : Thrown) : M unit :=
  let '(cause, failedItem) :=
    match error with
    | ItemSyncError cause item => (cause, Some item)
    | _ => (error, None)
    end in
  let errorMessage := String_of cause in
  _ ← log errorMessage LogError;
  _ ← match hasErrorStack C cause with
      | Some stack => log stack LogError
      | None => mret tt
      end;
  emit (EvFail errorMessage failedItem).

(** [performSyncJob]; [itemIDs] lists the set in insertion order. *)
Definition performSyncJob (itemIDs : list Z) : M unit :=
  items ← read (Zotero_Items_get_all itemIDs);
  if bool_decide (length items = 0) then mret tt
  else
    _ ← emit (EvNewProgressWindow (length items));
    try_catch
      (syncJob ← prepareSyncJob items;
       _ ← perform syncJob;
       emit EvComplete)
      report_failure.

(** ** Reading a trace *)

(** The events recorded between the state [s] and a later state [s']. *)
Definition emitted (s s' : State) : list Event :=
  drop (length (trace s)) (trace s').

(** The page writes sent to the remote workspace. *)
Definition is_page_call (ev : Event) : bool :=
  match ev with
  | EvPagesUpdate _ _ | EvPagesCreate _ _ => true
  | _ => false
  end.

Definition is_create (ev : Event) : bool :=
  match ev with
  | EvPagesCreate _ _ => true
  | _ => false
  end.

Definition is_build (ev : Event) : bool :=
  match ev with
  | EvBuildProperties _ _ => true
  | _ => false
  end.

Definition is_link (ev : Event) : bool :=
  match ev with
  | EvSaveNotionLinkAttachment _ _ => true
  | _ => false
  end.

(** The item a host or builder call is made for. *)
Definition event_item (ev : Event) : option Item :=
  match ev with
  | EvBuildProperties item _ => Some item
  | EvSaveNotionTag item => Some item
  | EvSaveNotionLinkAttachment item _ => Some item
  | _ => None
  end.

(** The events that may follow the property builder in the sync of
    [item]: page writes, the tag and the back-link of [item]. *)
Definition after_build_event (item : Item) (ev : Event) : Prop :=
  match ev with
  | EvPagesUpdate _ _ | EvPagesCreate _ _ => True
  | EvSaveNotionTag it => it = item
  | EvSaveNotionLinkAttachment it _ => it = item
  | _ => False
  end.

(** The calls that report to the user: the log and the progress window. *)
Definition is_report (ev : Event) : bool :=
  match ev with
  | EvLog _ _ | EvNewProgressWindow _ | EvUpdateText _ | EvUpdateProgress _
  | EvComplete | EvFail _ _ => true
  | _ => false
  end.

(** The state in which the [try] block of [perform] starts for the entry
    at [index]: the turn is logged and shown. *)
Definition step_opened (job : SyncJobParams) (index : nat) (item : Item)
    (s : State) : State :=
  advance s (world s)
    [EvLog (syncing_message job index item) LogInfo; EvUpdateText (index + 1)].

(** The state in which the turn of the entry at [index] is complete. *)
Definition step_closed (index : nat) (s : State) : State :=
  advance s (world s) [EvUpdateProgress (index + 1)].

(** The notes of [noteIDs] that resolve, in order. *)
Definition resolved_notes (w : W) (noteIDs : list Z) : list Item :=
  omap (λ noteID, Zotero_Items_get C (Some noteID) w) noteIDs.

(** The text that the loop of [syncItemAndNotes] builds, read as one
    expression: every note that resolves, followed by the separator. *)
Definition terminated_notes (w : W) (item : Item) : string :=
  foldr String.append ""
    (map (λ noteItem, getNote noteItem +:+ note_separator)
       (resolved_notes w (getNotes item))).

(** The text that [syncItemAndNotes] assigns to [item.zotero_note]. *)
Definition note_text (w : W) (item : Item) : string :=
  sanitize (collect_notes w (getNotes item) "").

(** The note text in the words of the specification: the plain text of
    the attached notes, in order, with the separator between notes. *)
Definition separated_note_text (w : W) (item : Item) : string :=
  String.concat note_separator
    (map (λ noteItem, sanitize (getNote noteItem))
       (resolved_notes w (getNotes item))).

(** ** More readings of a trace *)

Definition is_update (ev : Event) : bool :=
  match ev with
  | EvPagesUpdate _ _ => true
  | _ => false
  end.

Definition is_tag (ev : Event) : bool :=
  match ev with
  | EvSaveNotionTag _ => true
  | _ => false
  end.

Definition is_retrieve (ev : Event) : bool :=
  match ev with
  | EvDatabasesRetrieve _ => true
  | _ => false
  end.

(** The calls made in the sync of an item: the property builder, the
    page writes, the tag and the back-link. *)
Definition is_item_call (ev : Event) : bool :=
  match ev with
  | EvBuildProperties _ _ | EvPagesUpdate _ _ | EvPagesCreate _ _
  | EvSaveNotionTag _ | EvSaveNotionLinkAttachment _ _ => true
  | _ => false
  end.

(** The steps shown by [progressWindow.updateText]. *)
Definition text_step (ev : Event) : option nat :=
  match ev with
  | EvUpdateText step => Some step
  | _ => None
  end.

(** The steps passed to [progressWindow.updateProgress]. *)
Definition progress_step (ev : Event) : option nat :=
  match ev with
  | EvUpdateProgress step => Some step
  | _ => None
  end.

(** The calls of the loop of [perform]: the log line and the progress
    of a turn, and the calls made in the sync of an item. *)
Definition is_loop_call (ev : Event) : bool :=
  match ev with
  | EvLog _ LogInfo | EvUpdateText _ | EvUpdateProgress _ => true
  | _ => is_item_call ev
  end.

(** The two ways the progress window ends. *)
Definition is_verdict (ev : Event) : bool :=
  match ev with
  | EvComplete | EvFail _ _ => true
  | _ => false
  end.

Definition is_window (ev : Event) : bool :=
  match ev with
  | EvNewProgressWindow _ => true
  | _ => false
  end.

(** The item that the turn of an entry syncs: the entry itself, or the
    parent of a note entry when it resolves. *)
Definition sync_target (w : W) (item : Item) : option Item :=
  if isNote item then Zotero_Items_get C (parentID item) w else Some item.

(** The calls that reach the remote database or belong to the sync of
    an item. *)
Definition is_retrieve_or_item_call (ev : Event) : bool :=
  is_retrieve ev || is_item_call ev.

(** What the [catch] block of [performSyncJob] takes from the error. *)
Definition failure_cause (error : Thrown) : Thrown :=
  match error with
  | ItemSyncError cause _ => cause
  | _ => error
  end.

Definition failure_item (error : Thrown) : option Item :=
  match error with
  | ItemSyncError _ item => Some item
  | _ => None
  end.

(** The calls of the [catch] block of [performSyncJob]. *)
Definition failure_report (error : Thrown) : list Event :=
  [EvLog (String_of (failure_cause error)) LogError]
  ++ match hasErrorStack C (failure_cause error) with
     | Some stack => [EvLog stack LogError]
     | None => []
     end
  ++ [EvFail (String_of (failure_cause error)) (failure_item error)].

(** ** The reads of the host

    The job once more, with every read of the host written down in the
    order the job makes it: the items it asks [Zotero.Items.get] for,
    the preferences it reads and the page ids it looks up.  A read does
    not change the state, so it leaves no mark in a [State]; the log of
    reads is kept beside it. *)

Inductive HostRead :=
(** [Zotero.Items.get(Array.from(itemIDs))] *)
| ReadItems (itemIDs : list Z)
(** [Zotero.Items.get(id)] *)
| ReadItem (itemID : option Z)
(** [getRequiredNoteroPref(NoteroPref.notionDatabaseID)] *)
| ReadDatabaseIDPref
(** [Zotero.Prefs.get('export.quickCopy.setting')] *)
| ReadQuickCopyPref
(** [getNoteroPref(NoteroPref.pageTitleFormat)] *)
| ReadPageTitleFormatPref
(** [getNotionPageID(item)] *)
| ReadPageID (item : Item).

Definition MA (A : Type) : Type :=
  State * list HostRead → Result A * (State * list HostRead).

#[global] Instance MA_ret : MRet MA := λ A a sl, (Ok a, sl).

#[global] Instance MA_bind : MBind MA := λ A B f m sl,
  match m sl with
  | (Ok a, sl') => f a sl'
  | (Throw e, sl') => (Throw e, sl')
  end.

Definition try_catch_logged {A} (m : MA A) (handler : Thrown → MA A)
  : MA A := λ sl,
  match m sl with
  | (Ok a, sl') => (Ok a, sl')
  | (Throw e, sl') => handler e sl'
  end.

(** A computation that reads nothing. *)
Definition unlogged {A} (m : M A) : MA A := λ sl,
  let '(r, s') := m sl.1 in (r, (s', sl.2)).

(** The reads [reads] are made, in this order. *)
Definition logged (reads : list HostRead) : MA unit := λ sl,
  (Ok tt, (sl.1, sl.2 ++ reads)).

(** [prepareSyncJob] *)
Definition prepareSyncJob_logged (items : list Item) : MA SyncJobParams :=
  _ ← unlogged (call EvGetNotionClient (λ w, (getNotionClient C w, w)));
  _ ← logged [ReadDatabaseIDPref];
  databaseID ←
    unlogged (read_or_throw (getRequiredNoteroPref_notionDatabaseID C));
  databaseProperties ← unlogged (retrieveDatabaseProperties databaseID);
  _ ← logged [ReadQuickCopyPref];
  citationFormat ← unlogged (read getCitationFormat);
  _ ← logged [ReadPageTitleFormatPref];
  pageTitleFormat ← unlogged (read getPageTitleFormat);
  mret {| citationFormat := citationFormat;
          databaseID := databaseID;
          databaseProperties := databaseProperties;
          items := items;
          pageTitleFormat := pageTitleFormat |}.

(** [SyncJob.syncItemAndNotes]: one lookup for every note id, then the
    assignment; [syncRegularItem] starts with [saveItemToDatabase], whose
    first statement looks up the page id, its only read. *)
Definition syncItemAndNotes_logged (job : SyncJobParams) (item : Item)
  : MA unit :=
  _ ← logged (map (λ noteID, ReadItem (Some noteID)) (getNotes item));
  text ← unlogged (read (λ w, collect_notes w (getNotes item) ""));
  _ ← unlogged (set_zotero_note item (sanitize text));
  _ ← logged [ReadPageID item];
  unlogged (syncRegularItem job item).

(** The body of the [try] block of [perform]. *)
Definition sync_entry_logged (job : SyncJobParams) (item : Item) : MA unit :=
  if isNote item then
    _ ← logged [ReadItem (parentID item)];
    parent ← unlogged (read (Zotero_Items_get C (parentID item)));
    match parent with
    | Some parent => syncItemAndNotes_logged job parent
    | None => mret tt
    end
  else syncItemAndNotes_logged job item.

Definition perform_step_logged (job : SyncJobParams) (index : nat)
    (item : Item) : MA unit :=
  let step := index + 1 in
  _ ← unlogged (log (syncing_message job index item) LogInfo);
  _ ← unlogged (emit (EvUpdateText step));
  _ ← try_catch_logged (sync_entry_logged job item)
        (λ error, unlogged (throw (ItemSyncError error item)));
  unlogged (emit (EvUpdateProgress step)).

Fixpoint perform_from_logged (job : SyncJobParams) (index : nat)
    (entries : list Item) : MA unit :=
  match entries with
  | [] => mret tt
  | item :: rest =>
      _ ← perform_step_logged job index item;
      perform_from_logged job (S index) rest
  end.

(** [SyncJob.perform] *)
Definition perform_logged (job : SyncJobParams) : MA unit :=
  perform_from_logged job 0 (items job).

(** [performSyncJob]: the items are asked for before the test on their
    number. *)
Definition performSyncJob_logged (itemIDs : list Z) : MA unit :=
  _ ← logged [ReadItems itemIDs];
  items ← unlogged (read (Zotero_Items_get_all itemIDs));
  if bool_decide (length items = 0) then mret tt
  else
    _ ← unlogged (emit (EvNewProgressWindow (length items)));
    try_catch_logged
      (syncJob ← prepareSyncJob_logged items;
       _ ← perform_logged syncJob;
       unlogged (emit EvComplete))
      (λ error, unlogged (report_failure error)).

(** The logged computation [ma] is [m] with its reads written down: it
    gives the result and the state of [m], and adds to the log only. *)
Definition logs {A} (ma : MA A) (m : M A) : Prop :=
  ∀ s log, ∃ reads, ma (s, log) = ((m s).1, ((m s).2, log ++ reads)).

(** The ids handed to [Zotero.Items.get] in the reads [reads]. *)
Definition looked_up (reads : list HostRead) : list (option Z) :=
  reads ≫= λ r,
    match r with
    | ReadItems itemIDs => Some <$> itemIDs
    | ReadItem itemID => [itemID]
    | _ => []
    end.

End SyncJob.

Arguments Collaborators : clear implicits.
Arguments Event : clear implicits.
Arguments State : clear implicits.
Arguments SyncJobParams : clear implicits.

(** ** A small world to run the job in

    A concrete host and remote workspace, used to run the job on
    examples: a store of items, the page ids kept on items, the synced
    tags and back-links, the pages of the remote database, and the
    switches that make a collaborator fail. *)
Module Sim.

Record Page := mkPage {
  page_id : string;
  page_url : option string
}.

Record World := mkWorld {
  store : gmap Z Item;
  pageIDs : gmap Z string;
  tags : gset Z;
  links : list (Z * string);
  pages : gmap string string;
  fresh : nat;
  (** the integration has the read-content capability *)
  readable : bool;
  (** an error that every update call fails with *)
  update_fault : option ErrorObject;
  (** the items the property builder fails on *)
  unbuildable : gset Z;
  quickCopy : PrefValue
}.

Definition set_pages (w : World) (ps : gmap string string) (n : nat) : World :=
  {| store := store w; pageIDs := pageIDs w; tags := tags w; links := links w;
     pages := ps; fresh := n; readable := readable w;
     update_fault := update_fault w; unbuildable := unbuildable w;
     quickCopy := quickCopy w |}.

Definition set_tags (w : World) (ts : gset Z) : World :=
  {| store := store w; pageIDs := pageIDs w; tags := ts; links := links w;
     pages := pages w; fresh := fresh w; readable := readable w;
     update_fault := update_fault w; unbuildable := unbuildable w;
     quickCopy := quickCopy w |}.

Definition set_links (w : World) (ls : list (Z * string)) : World :=
  {| store := store w; pageIDs := pageIDs w; tags := tags w; links := ls;
     pages := pages w; fresh := fresh w; readable := readable w;
     update_fault := update_fault w; unbuildable := unbuildable w;
     quickCopy := quickCopy w |}.

(** Text content by dropping what stands between [<] and [>]. *)
Fixpoint strip_tags (in_tag : bool) (html : string) : string :=
  match html with
  | EmptyString => EmptyString
  | String c rest =>
      if in_tag then strip_tags (negb (Ascii.eqb c ">"%char)) rest
      else if Ascii.eqb c "<"%char then strip_tags true rest
      else String c (strip_tags false rest)
  end.

Definition not_found_error : ErrorObject :=
  {| err_name := "APIResponseError";
     err_message := "Could not find page";
     err_code := Some ObjectNotFound |}.

Definition response (w : World) (pid : string) : Page :=
  {| page_id := pid;
     page_url := if readable w then Some ("https://www.notion.so/" +:+ pid)
                 else None |}.

Definition build (cf : string) (db : string) (item : Item)
    (note : option string) (ptf : PageTitleFormat) (w : World)
  : Result string * World :=
  if bool_decide (item_id item ∈ unbuildable w)
  then (Throw (new_Error "cannot build properties"), w)
  else (Ok (pretty (item_id item) +:+ ":" +:+ default "" note), w).

Definition update (pid : string) (props : string) (w : World)
  : Result Page * World :=
  match update_fault w with
  | Some e => (Throw (JsError e), w)
  | None =>
      match pages w !! pid with
      | Some _ => (Ok (response w pid),
                   set_pages w (<[pid := props]> (pages w)) (fresh w))
      | None => (Throw (JsError not_found_error), w)
      end
  end.

Definition create (db : string) (props : string) (w : World)
  : Result Page * World :=
  let pid := "page" +:+ pretty (fresh w) in
  (Ok (response w pid), set_pages w (<[pid := props]> (pages w)) (S (fresh w))).

Definition host : Collaborators World string string Page :=
  {| Zotero_Items_get := λ oid w, oid ≫= (λ i, store w !! i);
     Zotero_Prefs_get_quickCopy := quickCopy;
     getNoteroPref_pageTitleFormat := λ _, None;
     getRequiredNoteroPref_notionDatabaseID := λ _, Ok "db";
     getNotionClient := λ _, Ok tt;
     databases_retrieve := λ _ w, (Ok "schema", w);
     getNotionPageID := λ item w, pageIDs w !! item_id item;
     buildProperties := build;
     pages_update := update;
     pages_create := create;
     saveNotionTag := λ item w,
       (Ok tt, set_tags w ({[item_id item]} ∪ tags w));
     saveNotionLinkAttachment := λ item url w,
       (Ok tt, set_links w (links w ++ [(item_id item, url)]));
     isFullPage := λ r, bool_decide (is_Some (page_url r));
     response_url := λ r, default "" (page_url r);
     convertWebURLToAppURL := λ url,
       "notion" +:+ substring 5 (String.length url - 5) url;
     isNotionErrorWithCode := λ e code,
       match e with
       | JsError eo => bool_decide (err_code eo = Some code)
       | ItemSyncError _ _ => false
       end;
     hasErrorStack := λ _, None;
     body_textContent := λ html, Some (strip_tags false html);
     APA_STYLE := "bibliography=http://www.zotero.org/styles/apa" |}.

Definition start (w : World) : State World string :=
  {| world := w; zotero_note := ∅; trace := [] |}.

(** Example data: a regular item with three attached note ids (one of
    which no longer resolves), its two notes, and two plain items. *)
Definition itemA : Item := mkItem 1 false None [10; 11; 12]%Z "".
Definition note10 : Item := mkItem 10 true (Some 1%Z) [] "<p>Hello</p>".
Definition note12 : Item := mkItem 12 true (Some 1%Z) [] "<b>World</b>".
Definition itemB : Item := mkItem 2 false None [] "".
Definition itemC : Item := mkItem 3 false None [] "".
(** A regular item with a single note. *)
Definition itemD : Item := mkItem 4 false None [10]%Z "".
(** A note whose parent is gone. *)
Definition orphan : Item := mkItem 20 true (Some 99%Z) [] "<p>lost</p>".

Definition library : gmap Z Item :=
  list_to_map [(1, itemA); (10, note10); (12, note12); (2, itemB);
               (3, itemC); (20, orphan)]%Z.

(** Item 1 keeps the id of a page that the workspace no longer has. *)
Definition stale_world : World :=
  {| store := library; pageIDs := {[1%Z := "p1"]}; tags := ∅; links := [];
     pages := ∅; fresh := 0; readable := true; update_fault := None;
     unbuildable := ∅; quickCopy := PrefUndefined |}.

(** Item 1 keeps the id of a page that the workspace still has. *)
Definition live_world : World :=
  {| store := library; pageIDs := {[1%Z := "p1"]}; tags := ∅; links := [];
     pages := {["p1" := "old"]}; fresh := 0; readable := true;
     update_fault := None; unbuildable := ∅; quickCopy := PrefString "mla" |}.

Definition rate_limited : ErrorObject :=
  {| err_name := "APIResponseError";
     err_message := "Rate limited";
     err_code := Some "rate_limited" |}.

(** Every update call is refused for a reason other than a missing page. *)
Definition limited_world : World :=
  {| store := library; pageIDs := {[1%Z := "p1"]}; tags := ∅; links := [];
     pages := {["p1" := "old"]}; fresh := 0; readable := true;
     update_fault := Some rate_limited; unbuildable := ∅;
     quickCopy := PrefString "" |}.

(** The integration lacks the read-content capability. *)
Definition blind_world : World :=
  {| store := library; pageIDs := ∅; tags := ∅; links := [];
     pages := ∅; fresh := 0; readable := false; update_fault := None;
     unbuildable := ∅; quickCopy := PrefNumber 7 |}.

(** The property builder fails on item 2. *)
Definition faulty_world : World :=
  {| store := library; pageIDs := ∅; tags := ∅; links := [];
     pages := ∅; fresh := 0; readable := true; update_fault := None;
     unbuildable := {[2%Z]}; quickCopy := PrefUndefined |}.

Definition job (items : list Item) : SyncJobParams string :=
  {| citationFormat := "apa"; databaseID := "db";
     databaseProperties := "schema"; items := items;
     pageTitleFormat := itemTitle |}.

(** The runs of the examples. *)
Definition stale_upsert : Result Page * State World string :=
  saveItemToDatabase host (job [itemA]) itemA (start stale_world).

Definition limited_upsert : Result Page * State World string :=
  saveItemToDatabase host (job [itemA]) itemA (start limited_world).

Definition blind_sync : Result unit * State World string :=
  syncRegularItem host (job [itemB]) itemB (start blind_world).

Definition live_sync : Result unit * State World string :=
  syncRegularItem host (job [itemA]) itemA (start live_world).

Definition faulty_batch : Result unit * State World string :=
  performSyncJob host [1; 2; 3]%Z (start faulty_world).

Definition single_note_sync : Result unit * State World string :=
  syncItemAndNotes host (job [itemD]) itemD (start live_world).

(** Item 2 with a note field left from an earlier sync. *)
Definition left_over : State World string :=
  with_note (start live_world) itemB "left over".

(** The job that [prepareSyncJob] builds in the world [w]. *)
Definition prepared (w : World) (entries : list Item) : SyncJobParams string :=
  {| citationFormat := getCitationFormat host w; databaseID := "db";
     databaseProperties := "schema"; items := entries;
     pageTitleFormat := itemTitle |}.

(** The host with another database retrieval and another tag write. *)
Definition variant
    (retrieve : string → World → Result string * World)
    (tag : Item → World → Result unit * World)
  : Collaborators World string string Page :=
  {| Zotero_Items_get := Zotero_Items_get host;
     Zotero_Prefs_get_quickCopy := Zotero_Prefs_get_quickCopy host;
     getNoteroPref_pageTitleFormat := getNoteroPref_pageTitleFormat host;
     getRequiredNoteroPref_notionDatabaseID :=
       getRequiredNoteroPref_notionDatabaseID host;
     getNotionClient := getNotionClient host;
     databases_retrieve := retrieve;
     getNotionPageID := getNotionPageID host;
     buildProperties := buildProperties host;
     pages_update := pages_update host;
     pages_create := pages_create host;
     saveNotionTag := tag;
     saveNotionLinkAttachment := saveNotionLinkAttachment host;
     isFullPage := isFullPage host;
     response_url := response_url host;
     convertWebURLToAppURL := convertWebURLToAppURL host;
     isNotionErrorWithCode := isNotionErrorWithCode host;
     hasErrorStack := hasErrorStack host;
     body_textContent := body_textContent host;
     APA_STYLE := APA_STYLE host |}.

Definition unauthorized : ErrorObject :=
  {| err_name := "APIResponseError";
     err_message := "API token is invalid.";
     err_code := Some "unauthorized" |}.

(** The workspace refuses the retrieval of the database. *)
Definition offline_host : Collaborators World string string Page :=
  variant (λ _ w, (Throw (JsError unauthorized), w)) (saveNotionTag host).

(** The items are read-only: the tag cannot be written. *)
Definition locked_host : Collaborators World string string Page :=
  variant (databases_retrieve host)
    (λ _ w, (Throw (new_Error "item is read-only"), w)).

(** Item 2 keeps an empty page id. *)
Definition empty_id_world : World :=
  {| store := library; pageIDs := {[2%Z := ""]}; tags := ∅; links := [];
     pages := ∅; fresh := 0; readable := true; update_fault := None;
     unbuildable := ∅; quickCopy := PrefUndefined |}.

End Sim.

(** * Properties of the job *)

Section Properties.

Context {W Props DbProps Response : Type}.
Context (C : Collaborators W Props DbProps Response).

Implicit Types (s : State W Props) (w : W) (item : Item).
Implicit Types (job : SyncJobParams DbProps) (evs : list (Event Props)).

(** ** States and traces *)

Lemma advance_advance s w1 evs1 w2 evs2 :
  advance (advance s w1 evs1) w2 evs2 = advance s w2 (evs1 ++ evs2).
Proof. unfold advance; simpl. by rewrite app_assoc. Qed.

Lemma advance_nil s : advance s (world s) [] = s.
Proof. destruct s; unfold advance; simpl. by rewrite app_nil_r. Qed.

Lemma emitted_advance s w evs : emitted s (advance s w evs) = evs.
Proof. unfold emitted, advance; simpl. by rewrite drop_app_length. Qed.

Lemma emitted_with_note s item text w evs :
  emitted s (advance (with_note s item text) w evs) = evs.
Proof. unfold emitted, advance; simpl. by rewrite drop_app_length. Qed.

(** ** The upsert *)

(** The upsert of an item that has a stored page id, once its properties
    are built: the update is sent first, and its result decides. *)
Lemma saveItemToDatabase_stored job item s pageID properties w1 r w2 :
  getNotionPageID C item (world s) = Some pageID →
  pageID ≠ "" →
  buildProperties C (citationFormat job) (databaseProperties job) item
    (zotero_note s !! item_id item) (pageTitleFormat job) (world s)
    = (Ok properties, w1) →
  pages_update C pageID properties w1 = (r, w2) →
  saveItemToDatabase C job item s =
    let s2 := advance s w2
                [EvBuildProperties item (zotero_note s !! item_id item);
                 EvPagesUpdate pageID properties] in
    match r with
    | Ok response => (Ok response, s2)
    | Throw e =>
        if isNotionErrorWithCode C e ObjectNotFound
        then call (EvPagesCreate (databaseID job) properties)
               (pages_create C (databaseID job) properties) s2
        else (Throw e, s2)
    end.
Proof.
  intros Hid Hne Hbuild Hupd.
  unfold saveItemToDatabase, mbind, M_bind, read, get_zotero_note, call,
    try_catch, mret, M_ret, throw; simpl.
  rewrite Hid, Hbuild; simpl.
  rewrite bool_decide_eq_false_2 by done; simpl.
  rewrite Hupd, !advance_advance; simpl.
  destruct r as [response|e]; simpl; [done|].
  destruct (isNotionErrorWithCode C e ObjectNotFound); simpl; [|done].
  by destruct (pages_create C (databaseID job) properties w2).
Qed.

(** C1. For an item that has a stored (non-empty) page id and whose
    properties are built, the upsert first sends an update with that id;
    it then sends a create, exactly one and under the database of the
    job, if and only if the update failed with the object-not-found
    code.  In that case the upsert returns what the create returns. *)
Theorem C1_update_first_create_iff_not_found
    job item s pageID properties w1 r w2 :
  getNotionPageID C item (world s) = Some pageID →
  pageID ≠ "" →
  buildProperties C (citationFormat job) (databaseProperties job) item
    (zotero_note s !! item_id item) (pageTitleFormat job) (world s)
    = (Ok properties, w1) →
  pages_update C pageID properties w1 = (r, w2) →
  let not_found :=
    match r with
    | Throw e => isNotionErrorWithCode C e ObjectNotFound
    | Ok _ => false
    end in
  let after_update :=
    advance s w2 [EvBuildProperties item (zotero_note s !! item_id item);
                  EvPagesUpdate pageID properties] in
  let sent := emitted s (saveItemToDatabase C job item s).2 in
  List.filter is_page_call sent =
    EvPagesUpdate pageID properties ::
    (if not_found then [EvPagesCreate (databaseID job) properties] else [])
  ∧ (length (List.filter is_create sent) = 1 ↔ not_found = true)
  ∧ (length (List.filter is_create sent) = 0 ↔ not_found = false)
  ∧ (not_found = true →
     saveItemToDatabase C job item s =
       call (EvPagesCreate (databaseID job) properties)
         (pages_create C (databaseID job) properties) after_update).
Proof.
  intros Hid Hne Hbuild Hupd; simpl.
  rewrite (saveItemToDatabase_stored job item s pageID properties w1 r w2)
    by done; simpl.
  destruct r as [response|e]; simpl.
  - rewrite emitted_advance; simpl. naive_solver.
  - destruct (isNotionErrorWithCode C e ObjectNotFound); simpl.
    + unfold call; simpl.
      destruct (pages_create C (databaseID job) properties w2) as [r' w3].
      simpl. rewrite advance_advance, emitted_advance; simpl. naive_solver.
    + rewrite emitted_advance; simpl. naive_solver.
Qed.

(** C7. For an item that has a stored page id, an update that fails
    with an error other than object-not-found makes the upsert throw
    that very error; the update is the only page write sent, so no
    create is issued and the update is not sent again. *)
Theorem C7_other_update_error_propagates
    job item s pageID properties w1 e w2 :
  getNotionPageID C item (world s) = Some pageID →
  pageID ≠ "" →
  buildProperties C (citationFormat job) (databaseProperties job) item
    (zotero_note s !! item_id item) (pageTitleFormat job) (world s)
    = (Ok properties, w1) →
  pages_update C pageID properties w1 = (Throw e, w2) →
  isNotionErrorWithCode C e ObjectNotFound = false →
  saveItemToDatabase C job item s =
    (Throw e,
     advance s w2 [EvBuildProperties item (zotero_note s !! item_id item);
                   EvPagesUpdate pageID properties])
  ∧ List.filter is_page_call (emitted s (saveItemToDatabase C job item s).2)
    = [EvPagesUpdate pageID properties].
Proof.
  intros Hid Hne Hbuild Hupd Hcode.
  rewrite (saveItemToDatabase_stored job item s pageID properties w1
             (Throw e) w2) by done; simpl.
  rewrite Hcode; simpl. by rewrite emitted_advance.
Qed.

(** ** What a sync records *)

Ltac run_sync :=
  unfold saveItemToDatabase, syncRegularItem, syncItemAndNotes, sync_entry,
    mbind, M_bind, read, get_zotero_note, set_zotero_note, call, emit,
    try_catch, mret, M_ret, throw in *; simpl in *.

Ltac close_trace :=
  eexists; split;
  [ rewrite ?advance_advance; simpl; reflexivity
  | repeat constructor; simpl; auto ].

(** An upsert records the property builder for the item, with the note
    field the builder sees, and after it page writes only; it leaves
    the note fields alone. *)
Lemma saveItemToDatabase_events job item s r s' :
  saveItemToDatabase C job item s = (r, s') →
  ∃ evs,
    s' = advance s (world s')
           (EvBuildProperties item (zotero_note s !! item_id item) :: evs)
    ∧ Forall (λ ev, is_page_call ev = true) evs.
Proof.
  intros Hrun. run_sync.
  repeat (case_match; simplify_eq/=); close_trace.
Qed.

(** The sync of a regular item records the property builder first and
    then page writes, the tag and the back-link of that item. *)
Lemma syncRegularItem_events job item s r s' :
  syncRegularItem C job item s = (r, s') →
  ∃ evs,
    s' = advance s (world s')
           (EvBuildProperties item (zotero_note s !! item_id item) :: evs)
    ∧ Forall (after_build_event item) evs.
Proof.
  unfold syncRegularItem, mbind, M_bind. intros Hrun.
  destruct (saveItemToDatabase C job item s) as [[response|e] s1] eqn:Hsave;
    destruct (saveItemToDatabase_events _ _ _ _ _ Hsave) as (evs & Hs1 & Hevs).
  - assert (Hpost : Forall (after_build_event item) evs).
    { eapply Forall_impl; [exact Hevs|]. by intros [] ?. }
    rewrite Hs1 in Hrun. run_sync.
    repeat (case_match; simplify_eq/=);
      (eexists; split;
       [ rewrite ?advance_advance; simpl; reflexivity
       | apply Forall_app; split; [done | by repeat constructor] ]).
  - simplify_eq. exists evs. split; [done|].
    eapply Forall_impl; [exact Hevs|]. by intros [] ?.
Qed.

(** [syncItemAndNotes] assigns the note field and then syncs the item. *)
Lemma syncItemAndNotes_unfold job item s :
  syncItemAndNotes C job item s =
    syncRegularItem C job item
      (with_note s item (note_text C (world s) item)).
Proof. reflexivity. Qed.

Lemma syncItemAndNotes_events job item s r s' :
  syncItemAndNotes C job item s = (r, s') →
  ∃ evs,
    s' = advance (with_note s item (note_text C (world s) item)) (world s')
           (EvBuildProperties item (Some (note_text C (world s) item)) :: evs)
    ∧ Forall (after_build_event item) evs.
Proof.
  rewrite syncItemAndNotes_unfold. intros Hrun.
  destruct (syncRegularItem_events _ _ _ _ _ Hrun) as (evs & Hs' & Hevs).
  exists evs. split; [|done].
  rewrite Hs' at 1. simpl. by rewrite lookup_insert_eq.
Qed.

(** The sync of a regular item once the upsert has returned: the tag is
    written, and the shape of the response decides between the back-link
    and the error. *)
Lemma syncRegularItem_after_upsert job item s response s1 rt w2 :
  saveItemToDatabase C job item s = (Ok response, s1) →
  saveNotionTag C item (world s1) = (rt, w2) →
  syncRegularItem C job item s =
    let s2 := advance s1 w2 [EvSaveNotionTag item] in
    let appURL := convertWebURLToAppURL C (response_url C response) in
    match rt with
    | Throw e => (Throw e, s2)
    | Ok _ =>
        if isFullPage C response
        then call (EvSaveNotionLinkAttachment item appURL)
               (saveNotionLinkAttachment C item appURL) s2
        else (Throw (new_Error read_capability_message), s2)
    end.
Proof.
  intros Hsave Htag. unfold syncRegularItem, mbind, M_bind.
  rewrite Hsave. unfold call, throw; simpl. rewrite Htag.
  destruct rt; simpl; [|done].
  by destruct (isFullPage C response).
Qed.

(** A turn of [perform] records no report of its own inside the [try]
    block. *)
Lemma sync_entry_events job item s r s' :
  sync_entry C job item s = (r, s') →
  ∃ evs, trace s' = trace s ++ evs ∧ Forall (λ ev, is_report ev = false) evs.
Proof.
  assert (Hsync : ∀ it, syncItemAndNotes C job it s = (r, s') →
    ∃ evs, trace s' = trace s ++ evs
           ∧ Forall (λ ev, is_report ev = false) evs).
  { intros it Hrun.
    destruct (syncItemAndNotes_events _ _ _ _ _ Hrun) as (evs & Hs' & Hevs).
    eexists. split; [by rewrite Hs'|].
    constructor; [done|].
    eapply Forall_impl; [exact Hevs|]. by intros [] ?. }
  unfold sync_entry, mbind, M_bind, read, mret, M_ret; simpl.
  destruct (isNote item); [|by apply Hsync].
  destruct (Zotero_Items_get C (parentID item) (world s)); [by apply Hsync|].
  intros [= <- <-]. exists []. by rewrite app_nil_r.
Qed.

(** ** The loop *)

Lemma perform_step_ok job index item s s1 :
  sync_entry C job item (step_opened job index item s) = (Ok tt, s1) →
  perform_step C job index item s = (Ok tt, step_closed index s1).
Proof.
  intros Hrun.
  unfold perform_step, mbind, M_bind, log, emit, try_catch; simpl.
  fold (step_opened job index item s).
  rewrite advance_advance; simpl.
  fold (step_opened job index item s). by rewrite Hrun.
Qed.

Lemma perform_step_throw job index item s e s1 :
  sync_entry C job item (step_opened job index item s) = (Throw e, s1) →
  perform_step C job index item s = (Throw (ItemSyncError e item), s1).
Proof.
  intros Hrun.
  unfold perform_step, mbind, M_bind, log, emit, try_catch, throw; simpl.
  rewrite advance_advance; simpl.
  fold (step_opened job index item s). by rewrite Hrun.
Qed.

(** The first error ends the loop: the entries after the failing one
    are not looked at. *)
Lemma perform_from_throw job index item rest s e s1 :
  perform_step C job index item s = (Throw e, s1) →
  perform_from C job index (item :: rest) s = (Throw e, s1).
Proof. intros Hrun. simpl. unfold mbind, M_bind. by rewrite Hrun. Qed.

Lemma perform_from_ok job index item rest s s1 :
  perform_step C job index item s = (Ok tt, s1) →
  perform_from C job index (item :: rest) s
  = perform_from C job (S index) rest s1.
Proof. intros Hrun. simpl. unfold mbind, M_bind. by rewrite Hrun. Qed.

(** [prepareSyncJob] hands the resolved items to the job. *)
Lemma prepareSyncJob_items entries s job s' :
  prepareSyncJob C entries s = (Ok job, s') → items job = entries.
Proof.
  unfold prepareSyncJob, retrieveDatabaseProperties, mbind, M_bind, call,
    read, read_or_throw, mret, M_ret; simpl.
  intros Hrun. repeat (case_match; simplify_eq/=). done.
Qed.

(** The [catch] block of [performSyncJob] reports and does nothing else. *)
Lemma report_failure_item cause item s :
  report_failure C (ItemSyncError cause item) s =
    (Ok tt,
     advance s (world s)
       ([EvLog (String_of cause) LogError] ++
        match hasErrorStack C cause with
        | Some stack => [EvLog stack LogError]
        | None => []
        end ++
        [EvFail (String_of cause) (Some item)])).
Proof.
  unfold report_failure, mbind, M_bind, log, emit, mret, M_ret; simpl.
  destruct (hasErrorStack C cause); simpl; by rewrite !advance_advance.
Qed.

(** ** Strings *)

Lemma string_app_assoc (a b c : string) : (a +:+ b) +:+ c = a +:+ b +:+ c.
Proof.
  induction a as [|ch a IH]; [done|].
  change (String ch ((a +:+ b) +:+ c) = String ch (a +:+ b +:+ c)).
  by rewrite IH.
Qed.

Lemma string_app_nil_r (a : string) : a +:+ "" = a.
Proof.
  induction a as [|ch a IH]; [done|].
  change (String ch (a +:+ "") = String ch a). by rewrite IH.
Qed.

Lemma str_or_empty (a : string) : str_or a "" = a.
Proof. unfold str_or. by case_bool_decide. Qed.

(** ** The note text *)

Lemma collect_notes_app w (ids1 ids2 : list Z) (text : string) :
  collect_notes C w (ids1 ++ ids2) text
  = collect_notes C w ids2 (collect_notes C w ids1 text).
Proof.
  revert text. induction ids1 as [|noteID ids1 IH]; intros text; simpl;
    [done|].
  by destruct (Zotero_Items_get C (Some noteID) w).
Qed.

(** The loop appends, to the text it starts from, every note that
    resolves followed by the separator. *)
Lemma collect_notes_spec w (ids : list Z) (text : string) :
  collect_notes C w ids text
  = text +:+ foldr String.append ""
               (map (λ noteItem, getNote noteItem +:+ note_separator)
                  (resolved_notes C w ids)).
Proof.
  revert text. induction ids as [|noteID ids IH]; intros text; simpl.
  - by rewrite string_app_nil_r.
  - unfold resolved_notes in *; simpl.
    destruct (Zotero_Items_get C (Some noteID) w) as [noteItem|]; simpl;
      [|done].
    by rewrite IH, str_or_empty, !string_app_assoc.
Qed.

Lemma note_text_spec w item :
  note_text C w item = sanitize C (terminated_notes C w item).
Proof. unfold note_text, terminated_notes. by rewrite collect_notes_spec. Qed.

(** The sync of an item leaves its note field as assigned. *)
Lemma syncItemAndNotes_note_field job item s :
  zotero_note (syncItemAndNotes C job item s).2 !! item_id item
  = Some (note_text C (world s) item).
Proof.
  destruct (syncItemAndNotes C job item s) as [r s'] eqn:Hrun.
  destruct (syncItemAndNotes_events _ _ _ _ _ Hrun) as (evs & -> & _).
  simpl. by rewrite lookup_insert_eq.
Qed.

Lemma after_build_no_build item evs :
  Forall (after_build_event item) evs →
  List.filter is_build evs = []
  ∧ Forall (λ ev, ∀ it, event_item ev = Some it → it = item) evs.
Proof.
  induction 1 as [|ev evs Hev _ [IH1 IH2]]; [done|].
  destruct ev; simpl in *; try done;
    (split; [done|]); constructor; simpl; try done; congruence.
Qed.

(** ** The batch *)

(** C2. A batch of three entries A, B, C in which the processing of A
    succeeds and the processing of B throws [e]: [perform] throws an
    [ItemSyncError] that carries [e] and B, in the state in which B
    threw; the trace holds the complete turn of A (up to its progress
    update) and the open turn of B, and nothing after it, so the turn of
    C never starts; and [performSyncJob] reports the failure with the
    text of [e] and with B as the failed item. *)
Theorem C2_batch_stops_at_failing_item
    itemIDs entryA entryB entryC s job s0 sA e sB :
  Zotero_Items_get_all C itemIDs (world s) = [entryA; entryB; entryC] →
  prepareSyncJob C [entryA; entryB; entryC]
    (advance s (world s) [EvNewProgressWindow 3]) = (Ok job, s0) →
  sync_entry C job entryA (step_opened job 0 entryA s0) = (Ok tt, sA) →
  sync_entry C job entryB (step_opened job 1 entryB (step_closed 0 sA))
    = (Throw e, sB) →
  perform C job s0 = (Throw (ItemSyncError e entryB), sB)
  ∧ (∃ evsA evsB,
       trace sB =
         trace s0
         ++ [EvLog (syncing_message job 0 entryA) LogInfo; EvUpdateText 1]
         ++ evsA
         ++ [EvUpdateProgress 1;
             EvLog (syncing_message job 1 entryB) LogInfo; EvUpdateText 2]
         ++ evsB
       ∧ Forall (λ ev, is_report ev = false) evsA
       ∧ Forall (λ ev, is_report ev = false) evsB)
  ∧ performSyncJob C itemIDs s
    = report_failure C (ItemSyncError e entryB) sB
  ∧ ∃ stack_log,
      performSyncJob C itemIDs s =
        (Ok tt,
         advance sB (world sB)
           ([EvLog (String_of e) LogError] ++ stack_log ++
            [EvFail (String_of e) (Some entryB)])).
Proof.
  intros Hget Hprep HA HB.
  pose proof (prepareSyncJob_items _ _ _ _ Hprep) as Hitems.
  assert (Hperform :
    perform C job s0 = (Throw (ItemSyncError e entryB), sB)).
  { unfold perform. rewrite Hitems.
    rewrite (perform_from_ok job 0 entryA _ s0 (step_closed 0 sA))
      by by apply perform_step_ok.
    apply perform_from_throw. by apply perform_step_throw. }
  assert (Hjob : performSyncJob C itemIDs s
                 = report_failure C (ItemSyncError e entryB) sB).
  { unfold performSyncJob, mbind, M_bind, read, emit, try_catch; simpl.
    rewrite Hget; simpl. rewrite Hprep, Hperform. done. }
  split; [done|]. split; [|split; [done|]].
  - destruct (sync_entry_events _ _ _ _ _ HA) as (evsA & HtA & HfA).
    destruct (sync_entry_events _ _ _ _ _ HB) as (evsB & HtB & HfB).
    exists evsA, evsB. split; [|done].
    rewrite HtB; simpl. rewrite HtA; simpl.
    by rewrite <- !app_assoc.
  - rewrite Hjob, report_failure_item. eauto.
Qed.

(** C4. A note entry of the batch.  When its parent resolves, the turn
    is the sync of the parent: the property builder runs once, for the
    parent, and every host call of the turn is made for the parent.
    When the parent does not resolve, the turn changes nothing and
    throws nothing: the loop records only the log line and the two
    progress calls of the turn. *)
Theorem C4_note_entry_syncs_parent_or_nothing job note index s :
  isNote note = true →
  (∀ parent,
     Zotero_Items_get C (parentID note) (world s) = Some parent →
     sync_entry C job note s = syncItemAndNotes C job parent s
     ∧ List.filter is_build (emitted s (sync_entry C job note s).2)
       = [EvBuildProperties parent (Some (note_text C (world s) parent))]
     ∧ Forall (λ ev, ∀ it, event_item ev = Some it → it = parent)
         (emitted s (sync_entry C job note s).2))
  ∧ (Zotero_Items_get C (parentID note) (world s) = None →
     sync_entry C job note s = (Ok tt, s)
     ∧ perform_step C job index note s
       = (Ok tt, step_closed index (step_opened job index note s))
     ∧ List.filter (λ ev, negb (is_report ev))
         (emitted s (perform_step C job index note s).2) = []).
Proof.
  intros Hnote. split.
  - intros parent Hparent.
    assert (Heq : sync_entry C job note s = syncItemAndNotes C job parent s).
    { unfold sync_entry, mbind, M_bind, read; simpl.
      by rewrite Hnote, Hparent. }
    rewrite Heq. split; [done|].
    destruct (syncItemAndNotes C job parent s) as [r s'] eqn:Hrun.
    destruct (syncItemAndNotes_events _ _ _ _ _ Hrun) as (evs & -> & Hevs).
    destruct (after_build_no_build _ _ Hevs) as [Hnone Hfor].
    simpl. rewrite emitted_with_note; simpl. rewrite Hnone.
    split; [done|]. constructor; [|done]. simpl. congruence.
  - intros Hparent.
    assert (Heq : ∀ s1, world s1 = world s →
                        sync_entry C job note s1 = (Ok tt, s1)).
    { intros s1 Hw. unfold sync_entry, mbind, M_bind, read, mret, M_ret.
      simpl. by rewrite Hnote, Hw, Hparent. }
    split; [by apply Heq|].
    rewrite (perform_step_ok job index note s (step_opened job index note s))
      by by apply Heq.
    split; [done|].
    unfold step_closed, step_opened; simpl.
    by rewrite advance_advance, emitted_advance.
Qed.

(** ** The reads of the host *)

Lemma logs_unlogged {A} (m : @M W Props A) : logs (unlogged m) m.
Proof.
  intros s log. exists []. unfold unlogged; simpl.
  destruct (m s). by rewrite app_nil_r.
Qed.

Lemma logs_ret {A} (a : A) :
  logs (mret a : @MA W Props A) (mret a : @M W Props A).
Proof. intros s log. exists []. by rewrite app_nil_r. Qed.

Lemma logs_bind {A B} (ma : @MA W Props A) (m : @M W Props A)
    (fa : A → @MA W Props B) (f : A → @M W Props B) :
  logs ma m → (∀ a, logs (fa a) (f a)) → logs (ma ≫= fa) (m ≫= f).
Proof.
  intros Hm Hf s log. destruct (Hm s log) as [reads1 Hrun1].
  unfold mbind, MA_bind, M_bind. rewrite Hrun1.
  destruct (m s) as [[a|e] s1]; simpl.
  - destruct (Hf a s1 (log ++ reads1)) as [reads2 Hrun2].
    exists (reads1 ++ reads2). by rewrite Hrun2, app_assoc.
  - by exists reads1.
Qed.

Lemma logs_logged {A} (reads : list HostRead) (ma : @MA W Props A)
    (m : @M W Props A) :
  logs ma m → logs (logged reads ≫= λ _, ma) m.
Proof.
  intros Hm s log. unfold mbind, MA_bind, logged; simpl.
  destruct (Hm s (log ++ reads)) as [reads' Hrun].
  exists (reads ++ reads'). by rewrite Hrun, app_assoc.
Qed.

Lemma logs_try_catch {A} (ma : @MA W Props A) (m : @M W Props A)
    (ha : Thrown → @MA W Props A) (h : Thrown → @M W Props A) :
  logs ma m → (∀ e, logs (ha e) (h e)) →
  logs (try_catch_logged ma ha) (try_catch m h).
Proof.
  intros Hm Hh s log. destruct (Hm s log) as [reads1 Hrun1].
  unfold try_catch_logged, try_catch. rewrite Hrun1.
  destruct (m s) as [[a|e] s1]; simpl.
  - by exists reads1.
  - destruct (Hh e s1 (log ++ reads1)) as [reads2 Hrun2].
    exists (reads1 ++ reads2). by rewrite Hrun2, app_assoc.
Qed.

Lemma prepareSyncJob_logged_logs entries :
  logs (prepareSyncJob_logged C entries) (prepareSyncJob C entries).
Proof.
  unfold prepareSyncJob_logged, prepareSyncJob.
  apply logs_bind; [apply logs_unlogged|]. intros _.
  apply logs_logged.
  apply logs_bind; [apply logs_unlogged|]. intros databaseID.
  apply logs_bind; [apply logs_unlogged|]. intros schema.
  apply logs_logged.
  apply logs_bind; [apply logs_unlogged|]. intros format.
  apply logs_logged.
  apply logs_bind; [apply logs_unlogged|]. intros titleFormat.
  apply logs_ret.
Qed.

Lemma syncItemAndNotes_logged_logs job item :
  logs (syncItemAndNotes_logged C job item) (syncItemAndNotes C job item).
Proof.
  unfold syncItemAndNotes_logged, syncItemAndNotes.
  apply logs_logged.
  apply logs_bind; [apply logs_unlogged|]. intros text.
  apply logs_bind; [apply logs_unlogged|]. intros _.
  apply logs_logged, logs_unlogged.
Qed.

Lemma sync_entry_logged_logs job item :
  logs (sync_entry_logged C job item) (sync_entry C job item).
Proof.
  unfold sync_entry_logged, sync_entry.
  destruct (isNote item); [|apply syncItemAndNotes_logged_logs].
  apply logs_logged.
  apply logs_bind; [apply logs_unlogged|]. intros [parent|].
  - apply syncItemAndNotes_logged_logs.
  - apply logs_ret.
Qed.

Lemma perform_from_logged_logs job entries index :
  logs (perform_from_logged C job index entries)
    (perform_from C job index entries).
Proof.
  revert index. induction entries as [|item rest IH]; intros index; simpl.
  - apply logs_ret.
  - apply logs_bind; [|intros _; apply IH].
    unfold perform_step_logged, perform_step.
    apply logs_bind; [apply logs_unlogged|]. intros _.
    apply logs_bind; [apply logs_unlogged|]. intros _.
    apply logs_bind; [|intros _; apply logs_unlogged].
    apply logs_try_catch; [apply sync_entry_logged_logs|].
    intros e. apply logs_unlogged.
Qed.

(** The logged job is the job: it gives the result and the state of
    [performSyncJob], and adds the reads to the log. *)
Lemma performSyncJob_logged_logs itemIDs :
  logs (performSyncJob_logged C itemIDs) (performSyncJob C itemIDs).
Proof.
  unfold performSyncJob_logged, performSyncJob.
  apply logs_logged.
  apply logs_bind; [apply logs_unlogged|]. intros entries.
  case_bool_decide; [apply logs_ret|].
  apply logs_bind; [apply logs_unlogged|]. intros _.
  apply logs_try_catch; [|intros e; apply logs_unlogged].
  apply logs_bind; [apply prepareSyncJob_logged_logs|]. intros job.
  apply logs_bind; [apply perform_from_logged_logs|]. intros _.
  apply logs_unlogged.
Qed.

(** C6 (as amended). On an empty set of item ids [performSyncJob] makes
    one read of the host and nothing else: it hands the empty list of
    ids to [Zotero.Items.get], by which no id is looked up, and returns
    at once; the state is the one it started from and no call is
    recorded (no progress window, no client, no remote call, no write
    to the host). *)
Theorem C6_empty_set_one_empty_lookup_and_nothing_else s log :
  performSyncJob_logged C [] (s, log) = (Ok tt, (s, log ++ [ReadItems []]))
  ∧ looked_up (performSyncJob_logged C [] (s, log)).2.2 = looked_up log
  ∧ performSyncJob C [] s = (Ok tt, s)
  ∧ emitted s (performSyncJob C [] s).2 = [].
Proof.
  assert (Hrun : performSyncJob_logged C [] (s, log)
                 = (Ok tt, (s, log ++ [ReadItems []]))) by done.
  split; [done|]. rewrite Hrun; simpl. split.
  - unfold looked_up. by rewrite bind_app, app_nil_r.
  - split; [done|]. unfold emitted; simpl. by rewrite drop_all.
Qed.

(** C8. The citation format is the quick-copy preference when that
    preference is a non-empty string, and [APA_STYLE] otherwise; it is
    the format of the job that [prepareSyncJob] builds. *)
Theorem C8_citation_format w :
  (∀ format,
     Zotero_Prefs_get_quickCopy C w = PrefString format → format ≠ "" →
     getCitationFormat C w = format)
  ∧ ((∀ format,
        Zotero_Prefs_get_quickCopy C w = PrefString format → format = "") →
     getCitationFormat C w = APA_STYLE C)
  ∧ (∀ entries s job s',
       prepareSyncJob C entries s = (Ok job, s') → world s' = w →
       citationFormat job = getCitationFormat C w).
Proof.
  unfold getCitationFormat. split; [|split].
  - intros format -> Hne. by rewrite bool_decide_eq_false_2.
  - intros Hall. destruct (Zotero_Prefs_get_quickCopy C w) as [f| | |];
      try done.
    by rewrite (Hall f eq_refl).
  - intros entries s job s' Hrun <-. revert Hrun.
    unfold prepareSyncJob, retrieveDatabaseProperties, mbind, M_bind, call,
      read, read_or_throw, mret, M_ret, getCitationFormat; simpl.
    intros Hrun. repeat (case_match; simplify_eq/=); done.
Qed.

(** ** The response of the upsert *)


(** C9. When the upsert returns a response that is not a full page, the
    tag of the item is written before the read-capability error is
    thrown: the tag call is the last call recorded, the world in which
    the error is thrown is the one the tag write produced, and neither
    the wrapping of the error by [perform] nor the report of the failure
    by [performSyncJob] changes that world. *)
Theorem C9_tag_written_before_capability_error job item s response s1 w2 :
  saveItemToDatabase C job item s = (Ok response, s1) →
  isFullPage C response = false →
  saveNotionTag C item (world s1) = (Ok tt, w2) →
  let error := new_Error read_capability_message in
  let s2 := advance s1 w2 [EvSaveNotionTag item] in
  syncRegularItem C job item s = (Throw error, s2)
  ∧ world s2 = w2
  ∧ trace s2 = trace s1 ++ [EvSaveNotionTag item]
  ∧ try_catch (syncRegularItem C job item)
      (λ cause, throw (ItemSyncError cause item)) s
    = (Throw (ItemSyncError error item), s2)
  ∧ world (report_failure C (ItemSyncError error item) s2).2 = w2.
Proof.
  intros Hsave Hfull Htag; simpl.
  rewrite (syncRegularItem_after_upsert job item s response s1 (Ok tt) w2)
    by done; simpl.
  rewrite Hfull. split; [done|]. split; [done|]. split; [done|].
  split.
  - unfold try_catch, throw.
    rewrite (syncRegularItem_after_upsert job item s response s1 (Ok tt) w2)
      by done; simpl.
    by rewrite Hfull.
  - by rewrite report_failure_item.
Qed.

(** ** The note field *)

(** C5 (as amended). After the sync of an item, its note field holds
    the sanitized text of one string: the attached notes that resolve,
    in the order of the note listing, each followed by the separator;
    the separator therefore also follows the last note, and the
    sanitizer is applied once, to the whole string. *)
Theorem C5_note_field_is_sanitized_terminated_notes job item s :
  zotero_note (syncItemAndNotes C job item s).2 !! item_id item
  = Some (sanitize C (terminated_notes C (world s) item))
  ∧ terminated_notes C (world s) item
    = foldr String.append ""
        (map (λ noteItem, getNote noteItem +:+ note_separator)
           (omap (λ noteID, Zotero_Items_get C (Some noteID) (world s))
              (getNotes item))).
Proof.
  split; [|done].
  by rewrite syncItemAndNotes_note_field, note_text_spec.
Qed.

(** C10. The sync of a regular item assigns the note field before the
    upsert, whatever the notes: the upsert runs in the state that holds
    the new value, the property builder is the first call recorded and
    it is given that value, and the value is still there afterwards.
    With no attached note the value is the sanitized empty string,
    which is the empty string when the parser finds no text in an empty
    document, whatever the field held before.  A note id that does not
    resolve adds nothing to the text: the loop gives the same text as
    without that id. *)
Theorem C10_note_field_assigned_before_upsert job item s :
  let text := note_text C (world s) item in
  syncItemAndNotes C job item s
  = syncRegularItem C job item (with_note s item text)
  ∧ zotero_note (with_note s item text) !! item_id item = Some text
  ∧ (∃ evs, emitted s (syncItemAndNotes C job item s).2
            = EvBuildProperties item (Some text) :: evs)
  ∧ zotero_note (syncItemAndNotes C job item s).2 !! item_id item = Some text
  ∧ (getNotes item = [] →
     text = sanitize C ""
     ∧ (body_textContent C "" = None ∨ body_textContent C "" = Some "" →
        zotero_note (with_note s item text) !! item_id item = Some ""))
  ∧ (∀ ids1 noteID ids2 start,
       Zotero_Items_get C (Some noteID) (world s) = None →
       collect_notes C (world s) (ids1 ++ noteID :: ids2) start
       = collect_notes C (world s) (ids1 ++ ids2) start).
Proof.
  simpl. split; [done|]. split; [by simpl; rewrite lookup_insert_eq|].
  split.
  { destruct (syncItemAndNotes C job item s) as [r s'] eqn:Hrun.
    destruct (syncItemAndNotes_events _ _ _ _ _ Hrun) as (evs & -> & _).
    exists evs. simpl. by rewrite emitted_with_note. }
  split; [by apply syncItemAndNotes_note_field|].
  split.
  - intros Hnone. unfold note_text. rewrite Hnone; simpl.
    split; [done|]. rewrite lookup_insert_eq.
    unfold sanitize. by intros [-> | ->].
  - intros ids1 noteID ids2 start Hid.
    rewrite !collect_notes_app; simpl. by rewrite Hid.
Qed.

End Properties.

(** * Further properties of the job *)

Section Coverage.

Context {W Props DbProps Response : Type}.
Context (C : Collaborators W Props DbProps Response).

Implicit Types (s : State W Props) (w : W) (item : Item).
Implicit Types (job : SyncJobParams DbProps) (evs : list (Event Props)).

Ltac run_job :=
  unfold saveItemToDatabase, syncRegularItem, syncItemAndNotes, sync_entry,
    prepareSyncJob, retrieveDatabaseProperties, report_failure,
    mbind, M_bind, read, read_or_throw, get_zotero_note, set_zotero_note,
    call, emit, log, try_catch, mret, M_ret, throw in *; simpl in *.

(** ** The upsert *)

(** The page writes of an upsert, in full: the property builder is
    called first, and then nothing, the update, the create, or the
    update followed by the create. *)
Lemma saveItemToDatabase_shape job item s r s' :
  saveItemToDatabase C job item s = (r, s') →
  ∃ calls,
    s' = advance s (world s')
           (EvBuildProperties item (zotero_note s !! item_id item) :: calls)
    ∧ ((calls = [] ∧ ∃ e, r = Throw e)
       ∨ (∃ pageID properties,
            truthy_str (getNotionPageID C item (world s)) = Some pageID
            ∧ calls = [EvPagesUpdate pageID properties])
       ∨ (∃ properties,
            truthy_str (getNotionPageID C item (world s)) = None
            ∧ calls = [EvPagesCreate (databaseID job) properties])
       ∨ (∃ pageID properties,
            truthy_str (getNotionPageID C item (world s)) = Some pageID
            ∧ calls = [EvPagesUpdate pageID properties;
                       EvPagesCreate (databaseID job) properties])).
Proof.
  intros Hrun. run_job.
  repeat (case_match; simplify_eq/=);
    (eexists; split;
     [ rewrite ?advance_advance; simpl; reflexivity | naive_solver ]).
Qed.

(** X1. An upsert sends at most one update and at most one create, the
    update first, the create under the database of the job; and it
    returns a response only when it has sent a page write. *)
Theorem X1_upsert_sends_at_most_one_update_and_one_create job item s :
  let run := saveItemToDatabase C job item s in
  let calls := List.filter is_page_call (emitted s run.2) in
  (length (List.filter is_update calls) ≤ 1)%nat
  ∧ (length (List.filter is_create calls) ≤ 1)%nat
  ∧ (∀ database_id properties,
       EvPagesCreate database_id properties ∈ calls →
       database_id = databaseID job ∧ last calls
       = Some (EvPagesCreate database_id properties))
  ∧ (∀ response, run.1 = Ok response → calls ≠ []).
Proof.
  simpl. destruct (saveItemToDatabase C job item s) as [r s'] eqn:Hrun.
  destruct (saveItemToDatabase_shape _ _ _ _ _ Hrun) as (calls & -> & Hshape).
  simpl. rewrite emitted_advance; simpl.
  destruct Hshape as [[-> [e ->]]|[(p & props & _ & ->)|
    [(props & _ & ->)|(p & props & _ & ->)]]]; simpl;
    (split; [lia|]); (split; [lia|]); (split; [|done]);
    intros d q Hin;
    repeat (apply elem_of_cons in Hin as [Hin|Hin]; simplify_eq; try done);
    by apply elem_of_nil in Hin.
Qed.

(** X2. An item without a stored page id, and likewise one whose
    stored id is the empty string, is created and never updated: once
    its properties are built the upsert sends one create with them
    under the database of the job, and returns what the create
    returns. *)
Theorem X2_no_page_id_creates job item s properties w1 :
  truthy_str (getNotionPageID C item (world s)) = None →
  buildProperties C (citationFormat job) (databaseProperties job) item
    (zotero_note s !! item_id item) (pageTitleFormat job) (world s)
    = (Ok properties, w1) →
  saveItemToDatabase C job item s
  = ((pages_create C (databaseID job) properties w1).1,
     advance s (pages_create C (databaseID job) properties w1).2
       [EvBuildProperties item (zotero_note s !! item_id item);
        EvPagesCreate (databaseID job) properties])
  ∧ List.filter is_page_call (emitted s (saveItemToDatabase C job item s).2)
    = [EvPagesCreate (databaseID job) properties].
Proof.
  intros Hid Hbuild.
  assert (Hrun : saveItemToDatabase C job item s
    = ((pages_create C (databaseID job) properties w1).1,
       advance s (pages_create C (databaseID job) properties w1).2
         [EvBuildProperties item (zotero_note s !! item_id item);
          EvPagesCreate (databaseID job) properties])).
  { run_job. rewrite Hid, Hbuild; simpl.
    destruct (pages_create C (databaseID job) properties w1); simpl.
    by rewrite advance_advance. }
  split; [done|]. rewrite Hrun; simpl. by rewrite emitted_advance.
Qed.

(** X3. When the property builder throws, the upsert throws the same
    error and no page write is sent. *)
Theorem X3_builder_failure_sends_nothing job item s e w1 :
  buildProperties C (citationFormat job) (databaseProperties job) item
    (zotero_note s !! item_id item) (pageTitleFormat job) (world s)
    = (Throw e, w1) →
  saveItemToDatabase C job item s
  = (Throw e,
     advance s w1 [EvBuildProperties item (zotero_note s !! item_id item)])
  ∧ List.filter is_page_call (emitted s (saveItemToDatabase C job item s).2)
    = [].
Proof.
  intros Hbuild.
  assert (Hrun : saveItemToDatabase C job item s
    = (Throw e,
       advance s w1 [EvBuildProperties item (zotero_note s !! item_id item)])).
  { run_job. by rewrite Hbuild. }
  split; [done|]. rewrite Hrun; simpl. by rewrite emitted_advance.
Qed.

(** ** The sync of a regular item *)

(** X4. An item whose upsert throws is neither tagged nor linked: the
    sync throws the error of the upsert in the state the upsert left. *)
Theorem X4_failed_upsert_is_not_tagged job item s e s1 :
  saveItemToDatabase C job item s = (Throw e, s1) →
  syncRegularItem C job item s = (Throw e, s1)
  ∧ List.filter is_tag (emitted s (syncRegularItem C job item s).2) = []
  ∧ List.filter is_link (emitted s (syncRegularItem C job item s).2) = [].
Proof.
  intros Hsave.
  assert (Hrun : syncRegularItem C job item s = (Throw e, s1)).
  { unfold syncRegularItem, mbind, M_bind. by rewrite Hsave. }
  split; [done|]. rewrite Hrun; simpl.
  destruct (saveItemToDatabase_shape _ _ _ _ _ Hsave) as (calls & -> & Hshape).
  rewrite emitted_advance.
  destruct Hshape as [[-> _]|[(p & props & _ & ->)|
    [(props & _ & ->)|(p & props & _ & ->)]]]; done.
Qed.

(** X5. When the tag cannot be written the sync throws that error and
    saves no back-link, whatever the shape of the response. *)
Theorem X5_failed_tag_saves_no_link job item s response s1 e w2 :
  saveItemToDatabase C job item s = (Ok response, s1) →
  saveNotionTag C item (world s1) = (Throw e, w2) →
  syncRegularItem C job item s
  = (Throw e, advance s1 w2 [EvSaveNotionTag item])
  ∧ List.filter is_link (emitted s (syncRegularItem C job item s).2) = [].
Proof.
  intros Hsave Htag.
  rewrite (syncRegularItem_after_upsert C job item s response s1 (Throw e) w2)
    by done; simpl.
  split; [done|].
  destruct (saveItemToDatabase_shape _ _ _ _ _ Hsave) as (calls & -> & Hshape).
  rewrite advance_advance, emitted_advance.
  destruct Hshape as [[-> _]|[(p & props & _ & ->)|
    [(props & _ & ->)|(p & props & _ & ->)]]]; done.
Qed.

(** X6. A sync that returns has written the tag and saved the back-link
    of the item, in that order and as its last two calls, after a
    response that is a full page; before them it called the property
    builder and sent at least one page write. *)
Theorem X6_successful_sync_tags_and_links job item s s' :
  syncRegularItem C job item s = (Ok tt, s') →
  ∃ calls response,
    isFullPage C response = true
    ∧ calls ≠ []
    ∧ Forall (λ ev, is_page_call ev = true) calls
    ∧ emitted s s'
      = EvBuildProperties item (zotero_note s !! item_id item) :: calls
        ++ [EvSaveNotionTag item;
            EvSaveNotionLinkAttachment item
              (convertWebURLToAppURL C (response_url C response))].
Proof.
  intros Hrun.
  destruct (saveItemToDatabase C job item s) as [[response|e] s1] eqn:Hsave.
  2:{ unfold syncRegularItem, mbind, M_bind in Hrun.
      by rewrite Hsave in Hrun. }
  destruct (saveNotionTag C item (world s1)) as [rt w2] eqn:Htag.
  rewrite (syncRegularItem_after_upsert C job item s response s1 rt w2)
    in Hrun by done; simpl in Hrun.
  destruct rt as [[]|e]; [|done].
  destruct (isFullPage C response) eqn:Hfull; [|done].
  unfold call in Hrun; simpl in Hrun.
  destruct (saveNotionLinkAttachment C item _ w2) as [rl w3].
  simplify_eq.
  destruct (saveItemToDatabase_shape _ _ _ _ _ Hsave) as (calls & -> & Hshape).
  exists calls, response. split; [done|].
  rewrite !advance_advance, emitted_advance.
  destruct Hshape as [[-> [e ?]]|[(p & props & _ & ->)|
    [(props & _ & ->)|(p & props & _ & ->)]]];
    [done|..]; (split; [done|]); (split; [by repeat constructor|done]).
Qed.

(** X7. The sync of an item writes the note field of that item only:
    the note field of every other item id is as it was. *)
Theorem X7_sync_leaves_other_note_fields job item s (other : Z) :
  other ≠ item_id item →
  zotero_note (syncItemAndNotes C job item s).2 !! other
  = zotero_note s !! other.
Proof.
  intros Hother.
  destruct (syncItemAndNotes C job item s) as [r s'] eqn:Hrun.
  destruct (syncItemAndNotes_events C _ _ _ _ _ Hrun) as (evs & -> & _).
  simpl. by rewrite lookup_insert_ne.
Qed.

(** ** The loop *)

Lemma sync_entry_item_calls job item s r s' :
  sync_entry C job item s = (r, s') →
  ∃ evs, trace s' = trace s ++ evs
         ∧ Forall (λ ev, is_item_call ev = true) evs.
Proof.
  assert (Hsync : ∀ it, syncItemAndNotes C job it s = (r, s') →
    ∃ evs, trace s' = trace s ++ evs
           ∧ Forall (λ ev, is_item_call ev = true) evs).
  { intros it Hrun.
    destruct (syncItemAndNotes_events C _ _ _ _ _ Hrun) as (evs & Hs' & Hevs).
    eexists. split; [by rewrite Hs'|].
    constructor; [done|].
    eapply Forall_impl; [exact Hevs|]. by intros [] ?. }
  unfold sync_entry, mbind, M_bind, read, mret, M_ret; simpl.
  destruct (isNote item); [|by apply Hsync].
  destruct (Zotero_Items_get C (parentID item) (world s)); [by apply Hsync|].
  intros [= <- <-]. exists []. by rewrite app_nil_r.
Qed.

Lemma item_calls_no_steps evs :
  Forall (λ ev, is_item_call ev = true) evs →
  omap text_step evs = [] ∧ omap progress_step evs = []
  ∧ Forall (λ ev, is_loop_call ev = true) evs.
Proof.
  induction 1 as [|ev evs Hev _ (IH1 & IH2 & IH3)]; [done|].
  destruct ev; simpl in *; try done; by repeat constructor.
Qed.

(** One turn of the loop: the log line and the step shown, the calls of
    the sync, and the progress update when the sync returned. *)
Lemma perform_step_trace job index item s r s' :
  perform_step C job index item s = (r, s') →
  ∃ evs,
    Forall (λ ev, is_item_call ev = true) evs
    ∧ trace s' =
        trace s
        ++ [EvLog (syncing_message job index item) LogInfo;
            EvUpdateText (index + 1)]
        ++ evs
        ++ match r with
           | Ok _ => [EvUpdateProgress (index + 1)]
           | Throw _ => []
           end
    ∧ match r with
      | Ok _ => True
      | Throw e => ∃ cause, e = ItemSyncError cause item
      end.
Proof.
  destruct (sync_entry C job item (step_opened job index item s))
    as [[[]|cause] s1] eqn:Hentry;
    destruct (sync_entry_item_calls _ _ _ _ _ Hentry) as (evs & Ht & Hevs).
  - rewrite (perform_step_ok C job index item s s1) by done.
    intros [= <- <-]. exists evs. split; [done|]. split; [|done].
    simpl. rewrite Ht; simpl. by rewrite <- !app_assoc.
  - rewrite (perform_step_throw C job index item s cause s1) by done.
    intros [= <- <-]. exists evs. split; [done|]. split; [|by eauto].
    rewrite Ht; simpl. by rewrite app_nil_r, <- !app_assoc.
Qed.

(** The loop from [index]: the steps shown are consecutive, the progress
    is updated for every turn but a failing one, and an error is the
    wrapper of the entry whose turn was last shown. *)
Lemma perform_from_trace job entries index s r s' :
  perform_from C job index entries s = (r, s') →
  ∃ evs,
    trace s' = trace s ++ evs
    ∧ Forall (λ ev, is_loop_call ev = true) evs
    ∧ match r with
      | Ok _ =>
          omap text_step evs = seq (index + 1) (length entries)
          ∧ omap progress_step evs = seq (index + 1) (length entries)
      | Throw e =>
          ∃ k cause item,
            entries !! k = Some item
            ∧ e = ItemSyncError cause item
            ∧ omap text_step evs = seq (index + 1) (S k)
            ∧ omap progress_step evs = seq (index + 1) k
      end.
Proof.
  revert index s. induction entries as [|item rest IH]; intros index s; simpl.
  - intros [= <- <-]. exists []. by rewrite app_nil_r.
  - unfold mbind, M_bind.
    destruct (perform_step C job index item s) as [[[]|e] s1] eqn:Hstep;
      destruct (perform_step_trace _ _ _ _ _ _ Hstep) as (evs1 & Hevs1 & Ht1 & He);
      destruct (item_calls_no_steps _ Hevs1) as (Htext & Hprog & Hloop).
    + intros Hrest. destruct (IH _ _ Hrest) as (evs2 & Ht2 & Hl2 & Hr).
      eexists. split; [rewrite Ht2, Ht1, <- !app_assoc; reflexivity|].
      split.
      { repeat (apply Forall_app; split); try done; by repeat constructor. }
      rewrite !omap_app, Htext, Hprog; simpl.
      replace (S index + 1) with (S (index + 1)) in Hr by lia.
      destruct r as [[]|e'].
      * destruct Hr as [-> ->]. done.
      * destruct Hr as (k & cause & it & Hk & -> & -> & ->).
        exists (S k), cause, it. done.
    + intros [= <- <-]. destruct He as [cause ->].
      eexists. split; [exact Ht1|]. split.
      { repeat (apply Forall_app; split); try done; by repeat constructor. }
      exists 0, cause, item.
      rewrite !omap_app, Htext, Hprog; simpl. done.
Qed.

(** X8. The steps of a batch.  [perform] shows the steps 1, 2, ... in
    order; when it returns, every entry has had its step shown and its
    progress updated; when it throws at the entry number k + 1, the
    steps shown are 1 to k + 1 and the progress stands at k: the failing
    turn was shown and was not counted as done. *)
Theorem X8_steps_are_consecutive job s :
  let run := perform C job s in
  let evs := emitted s run.2 in
  match run.1 with
  | Ok _ =>
      omap text_step evs = seq 1 (length (items job))
      ∧ omap progress_step evs = seq 1 (length (items job))
  | Throw _ =>
      ∃ k, k < length (items job)
           ∧ omap text_step evs = seq 1 (S k)
           ∧ omap progress_step evs = seq 1 k
  end.
Proof.
  simpl. unfold perform.
  destruct (perform_from C job 0 (items job) s) as [r s'] eqn:Hrun.
  destruct (perform_from_trace _ _ _ _ _ _ Hrun) as (evs & Ht & _ & Hr).
  simpl. unfold emitted. rewrite Ht, drop_app_length.
  destruct r as [[]|e]; [done|].
  destruct Hr as (k & cause & item & Hk & _ & -> & ->).
  exists k. split; [|done]. by eapply lookup_lt_Some.
Qed.

(** X9. What [perform] throws is always an [ItemSyncError], and the
    item it carries is an entry of the batch: the entry whose step was
    the last one shown. *)
Theorem X9_perform_throws_item_errors_only job s e s' :
  perform C job s = (Throw e, s') →
  ∃ cause item k,
    e = ItemSyncError cause item
    ∧ items job !! k = Some item
    ∧ last (omap text_step (emitted s s')) = Some (S k).
Proof.
  unfold perform. intros Hrun.
  destruct (perform_from_trace _ _ _ _ _ _ Hrun) as (evs & Ht & _ & Hr).
  destruct Hr as (k & cause & item & Hk & -> & Htext & _).
  exists cause, item, k. split; [done|]. split; [done|].
  unfold emitted. rewrite Ht, drop_app_length, Htext.
  rewrite seq_S, last_snoc. done.
Qed.

(** X10. A batch in two parts.  When the loop over the first part
    returns, the loop over both parts goes on with the second part, at
    the index after the first; when it throws, the second part is never
    entered: the result and the state are those of the first part. *)
Theorem X10_loop_over_two_parts job entries1 entries2 index s :
  perform_from C job index (entries1 ++ entries2) s
  = match perform_from C job index entries1 s with
    | (Ok _, s1) => perform_from C job (index + length entries1) entries2 s1
    | (Throw e, s1) => (Throw e, s1)
    end.
Proof.
  revert index s. induction entries1 as [|item rest IH]; intros index s; simpl.
  - by rewrite Nat.add_0_r.
  - unfold mbind, M_bind.
    destruct (perform_step C job index item s) as [[[]|e] s1]; [|done].
    rewrite IH. by replace (S index + length rest) with (index + S (length rest))
      by lia.
Qed.

(** ** The whole job *)

Lemma report_failure_run error s :
  report_failure C error s
  = (Ok tt, advance s (world s) (failure_report C error)).
Proof.
  unfold report_failure, failure_report, mbind, M_bind, log, emit, mret,
    M_ret.
  destruct error as [eo|cause item]; simpl;
    match goal with
    | |- context [hasErrorStack C ?c] => destruct (hasErrorStack C c)
    end; simpl; by rewrite !advance_advance.
Qed.

(** [prepareSyncJob] asks for the client, and retrieves the database
    only when the client and the database id are there. *)
Lemma prepareSyncJob_trace entries s r s' :
  prepareSyncJob C entries s = (r, s') →
  ∃ evs,
    s' = advance s (world s') evs
    ∧ ((evs = [EvGetNotionClient] ∧ world s' = world s ∧ ∃ e, r = Throw e)
       ∨ (∃ database_id,
            evs = [EvGetNotionClient; EvDatabasesRetrieve database_id]
            ∧ getRequiredNoteroPref_notionDatabaseID C (world s)
              = Ok database_id)).
Proof.
  intros Hrun. run_job.
  repeat (case_match; simplify_eq/=);
    (eexists; split;
     [ rewrite ?advance_advance; simpl; reflexivity | naive_solver ]).
Qed.

(** [performSyncJob] when some id resolves. *)
Lemma performSyncJob_run itemIDs s :
  Zotero_Items_get_all C itemIDs (world s) ≠ [] →
  performSyncJob C itemIDs s =
    let entries := Zotero_Items_get_all C itemIDs (world s) in
    match prepareSyncJob C entries
            (advance s (world s) [EvNewProgressWindow (length entries)]) with
    | (Throw e, s2) => (Ok tt, advance s2 (world s2) (failure_report C e))
    | (Ok job, s2) =>
        match perform C job s2 with
        | (Ok _, s3) => (Ok tt, advance s3 (world s3) [EvComplete])
        | (Throw e, s3) => (Ok tt, advance s3 (world s3) (failure_report C e))
        end
    end.
Proof.
  intros Hsome.
  unfold performSyncJob, mbind, M_bind, read, emit, try_catch; simpl.
  rewrite bool_decide_eq_false_2
    by (by destruct (Zotero_Items_get_all C itemIDs (world s))).
  destruct (prepareSyncJob C _ _) as [[job|e] s2];
    [|by rewrite report_failure_run].
  destruct (perform C job s2) as [[[]|e] s3]; [done|].
  by rewrite report_failure_run.
Qed.

Lemma failure_report_shape error :
  ∃ evs,
    failure_report C error
    = evs ++ [EvFail (String_of (failure_cause error)) (failure_item error)]
    ∧ Forall (λ ev, is_verdict ev = false ∧ is_window ev = false
                    ∧ is_retrieve_or_item_call ev = false) evs.
Proof.
  unfold failure_report.
  destruct (hasErrorStack C (failure_cause error)) as [stack|];
    eexists; (split; [by rewrite app_assoc|]); by repeat constructor.
Qed.

Lemma loop_calls_quiet evs :
  Forall (λ ev, is_loop_call ev = true) evs →
  Forall (λ ev, is_verdict ev = false ∧ is_window ev = false) evs
  ∧ List.filter is_retrieve_or_item_call evs = List.filter is_item_call evs
  ∧ Forall (λ ev, is_item_call ev = true) (List.filter is_item_call evs).
Proof.
  induction 1 as [|ev evs Hev _ (IH1 & IH2 & IH3)]; [done|].
  destruct ev as [? []| | | | | | | | | | | |]; simpl in *; try done;
    rewrite ?IH2; repeat split; try done; by repeat constructor.
Qed.

Lemma quiet_no_calls evs :
  Forall (λ ev, is_verdict ev = false ∧ is_window ev = false
                ∧ is_retrieve_or_item_call ev = false) evs →
  Forall (λ ev, is_verdict ev = false ∧ is_window ev = false) evs
  ∧ List.filter is_retrieve_or_item_call evs = [].
Proof.
  induction 1 as [|ev evs (Hv & Hw & Hc) _ [IH1 IH2]]; [done|].
  simpl. rewrite Hc. split; [by constructor|done].
Qed.

(** The trace of the job when some id resolves: the window, the calls of
    the setup, the calls of the loop, a report, and the verdict. *)
Lemma performSyncJob_trace itemIDs s :
  Zotero_Items_get_all C itemIDs (world s) ≠ [] →
  ∃ setup loop report verdict,
    emitted s (performSyncJob C itemIDs s).2
    = EvNewProgressWindow
        (length (Zotero_Items_get_all C itemIDs (world s)))
      :: setup ++ loop ++ report ++ [verdict]
    ∧ is_verdict verdict = true
    ∧ Forall (λ ev, is_loop_call ev = true) loop
    ∧ Forall (λ ev, is_verdict ev = false ∧ is_window ev = false
                    ∧ is_retrieve_or_item_call ev = false) report
    ∧ ((setup = [EvGetNotionClient] ∧ loop = [])
       ∨ (∃ database_id,
            setup = [EvGetNotionClient; EvDatabasesRetrieve database_id]
            ∧ getRequiredNoteroPref_notionDatabaseID C (world s)
              = Ok database_id)).
Proof.
  intros Hsome. rewrite performSyncJob_run by done; simpl.
  set (entries := Zotero_Items_get_all C itemIDs (world s)).
  destruct (prepareSyncJob C entries _) as [[job|e] s2] eqn:Hprep;
    destruct (prepareSyncJob_trace _ _ _ _ Hprep) as (setup & Hs2 & Hsetup).
  - destruct Hsetup as [(_ & _ & e & [=])|Hsetup].
    destruct (perform C job s2) as [r s3] eqn:Hperf.
    unfold perform in Hperf.
    destruct (perform_from_trace _ _ _ _ _ _ Hperf) as (loop & Ht & Hloop & _).
    destruct r as [[]|e].
    + exists setup, loop, [], EvComplete. simpl.
      split; [|by repeat split; [done..|right]].
      unfold emitted; simpl. rewrite Ht, Hs2; simpl.
      rewrite <- !app_assoc. by rewrite drop_app_length.
    + destruct (failure_report_shape e) as (report & -> & Hreport).
      exists setup, loop, report, (EvFail (String_of (failure_cause e))
                                      (failure_item e)).
      split; [|by repeat split; [done..|right]].
      unfold emitted; simpl. rewrite Ht, Hs2; simpl.
      rewrite <- !app_assoc. by rewrite drop_app_length.
  - destruct (failure_report_shape e) as (report & -> & Hreport).
    exists setup, [], report, (EvFail (String_of (failure_cause e))
                                 (failure_item e)).
    split.
    { unfold emitted; simpl. rewrite Hs2; simpl.
      rewrite <- !app_assoc. by rewrite drop_app_length. }
    split; [done|]. split; [done|]. split; [done|].
    destruct Hsetup as [(-> & _)|Hsetup]; [by left|by right].
Qed.

(** X11. [performSyncJob] never throws: every failure ends in the
    progress window.  When some id resolves it opens one progress
    window, sized to the items that resolve, as its first call, and its
    last call is the one verdict of the job, complete or failed. *)
Theorem X11_job_never_throws_and_ends_with_one_verdict itemIDs s :
  let run := performSyncJob C itemIDs s in
  let entries := Zotero_Items_get_all C itemIDs (world s) in
  run.1 = Ok tt
  ∧ (entries ≠ [] →
     ∃ evs verdict,
       emitted s run.2
       = EvNewProgressWindow (length entries) :: evs ++ [verdict]
       ∧ is_verdict verdict = true
       ∧ Forall (λ ev, is_verdict ev = false ∧ is_window ev = false) evs).
Proof.
  simpl. split.
  - destruct (decide (Zotero_Items_get_all C itemIDs (world s) = []))
      as [Hnone|Hsome].
    + unfold performSyncJob, mbind, M_bind, read; simpl. by rewrite Hnone.
    + rewrite performSyncJob_run by done; simpl.
      destruct (prepareSyncJob C _ _) as [[job|e] s2]; [|done].
      by destruct (perform C job s2) as [[[]|e] s3].
  - intros Hsome.
    destruct (performSyncJob_trace itemIDs s Hsome)
      as (setup & loop & report & verdict & -> & Hv & Hloop & Hrep & Hsetup).
    exists (setup ++ loop ++ report), verdict.
    split; [by rewrite <- !app_assoc|]. split; [done|].
    destruct (loop_calls_quiet _ Hloop) as [Hquiet _].
    destruct (quiet_no_calls _ Hrep) as [Hquiet' _].
    repeat (apply Forall_app; split); try done.
    destruct Hsetup as [[-> _]|(db & -> & _)]; by repeat constructor.
Qed.

(** X12. The database is retrieved at most once in a job, under the
    configured database id, and before anything is done for an item:
    of the calls that retrieve the database or belong to the sync of an
    item, the first is the retrieval and all others are item calls. *)
Theorem X12_schema_retrieved_once_before_items itemIDs s :
  let calls :=
    List.filter is_retrieve_or_item_call
      (emitted s (performSyncJob C itemIDs s).2) in
  calls = []
  ∨ ∃ database_id item_calls,
      calls = EvDatabasesRetrieve database_id :: item_calls
      ∧ getRequiredNoteroPref_notionDatabaseID C (world s) = Ok database_id
      ∧ Forall (λ ev, is_item_call ev = true) item_calls.
Proof.
  simpl.
  destruct (decide (Zotero_Items_get_all C itemIDs (world s) = []))
    as [Hnone|Hsome].
  { left. unfold performSyncJob, mbind, M_bind, read; simpl.
    rewrite Hnone; simpl. unfold emitted. by rewrite drop_all. }
  destruct (performSyncJob_trace itemIDs s Hsome)
    as (setup & loop & report & verdict & -> & Hv & Hloop & Hrep & Hsetup).
  destruct (loop_calls_quiet _ Hloop) as (_ & Hfilter & Hitems).
  destruct (quiet_no_calls _ Hrep) as [_ Hnone].
  assert (Hverdict : List.filter is_retrieve_or_item_call [verdict] = []).
  { by destruct verdict. }
  destruct Hsetup as [[-> ->]|(db & -> & Hdb)]; simpl;
    rewrite !List.filter_app, Hnone, Hverdict, ?Hfilter; simpl.
  - by left.
  - right. exists db, (List.filter is_item_call loop).
    by rewrite !app_nil_r.
Qed.

(** X13. When the setup of the job throws, no item is touched: the job
    makes no item call and writes no note field, and it reports the
    failure without naming an item, with the text of the error. *)
Theorem X13_setup_failure_touches_no_item itemIDs s eo s1 :
  Zotero_Items_get_all C itemIDs (world s) ≠ [] →
  prepareSyncJob C (Zotero_Items_get_all C itemIDs (world s))
    (advance s (world s)
       [EvNewProgressWindow
          (length (Zotero_Items_get_all C itemIDs (world s)))])
  = (Throw (JsError eo), s1) →
  let run := performSyncJob C itemIDs s in
  List.filter is_item_call (emitted s run.2) = []
  ∧ zotero_note run.2 = zotero_note s
  ∧ last (emitted s run.2) = Some (EvFail (error_toString eo) None).
Proof.
  intros Hsome Hprep; simpl.
  rewrite performSyncJob_run by done; simpl. rewrite Hprep.
  destruct (prepareSyncJob_trace _ _ _ _ Hprep) as (setup & -> & Hsetup).
  simpl. rewrite !advance_advance, emitted_advance.
  split; [|split; [done|]].
  - unfold failure_report; simpl.
    destruct (hasErrorStack C (JsError eo));
      destruct Hsetup as [(-> & _)|(db & -> & _)]; done.
  - unfold failure_report; simpl.
    rewrite !app_comm_cons, !app_assoc. by rewrite last_snoc.
Qed.

(** X14. When none of the ids resolves, the job returns at once, as for
    the empty set: the state is unchanged and nothing is recorded. *)
Theorem X14_unresolved_ids_do_nothing (itemIDs : list Z) s :
  (∀ itemID, itemID ∈ itemIDs →
     Zotero_Items_get C (Some itemID) (world s) = None) →
  performSyncJob C itemIDs s = (Ok tt, s).
Proof.
  intros Hnone.
  assert (Hall : Zotero_Items_get_all C itemIDs (world s) = []).
  { unfold Zotero_Items_get_all.
    induction itemIDs as [|itemID rest IH]; [done|]. simpl.
    rewrite (Hnone itemID) by apply list_elem_of_here.
    apply IH. intros i Hi. apply Hnone. by apply list_elem_of_further. }
  unfold performSyncJob, mbind, M_bind, read; simpl. by rewrite Hall.
Qed.

(** X15. The citation format is never the empty string, given that
    [APA_STYLE] is not: an empty quick-copy preference falls back to
    it. *)
Theorem X15_citation_format_is_not_empty w :
  APA_STYLE C ≠ "" → getCitationFormat C w ≠ "".
Proof.
  intros Hapa. unfold getCitationFormat.
  destruct (Zotero_Prefs_get_quickCopy C w) as [format| | |]; try done.
  by case_bool_decide.
Qed.

(** ** Notes and their parents in one batch *)

(** A turn calls the property builder once, for the item it syncs, and
    not at all when a note entry has no parent that resolves. *)
Lemma perform_step_builds job index item s r s' :
  perform_step C job index item s = (r, s') →
  ∃ evs,
    trace s' = trace s ++ evs
    ∧ map event_item (List.filter is_build evs)
      = match sync_target C (world s) item with
        | Some target => [Some target]
        | None => []
        end.
Proof.
  assert (Hsync : ∀ target s0 r0 s1,
    syncItemAndNotes C job target s0 = (r0, s1) →
    ∃ evs, trace s1 = trace s0 ++ evs
           ∧ map event_item (List.filter is_build evs) = [Some target]).
  { intros target s0 r0 s1 Hrun.
    destruct (syncItemAndNotes_events C _ _ _ _ _ Hrun) as (evs & -> & Hevs).
    destruct (after_build_no_build _ _ Hevs) as [Hnone _].
    eexists. split; [reflexivity|]. simpl. by rewrite Hnone. }
  assert (Hentry : ∀ r0 s1,
    sync_entry C job item (step_opened job index item s) = (r0, s1) →
    ∃ evs, trace s1 = trace (step_opened job index item s) ++ evs
           ∧ map event_item (List.filter is_build evs)
             = match sync_target C (world s) item with
               | Some target => [Some target]
               | None => []
               end).
  { intros r0 s1. unfold sync_entry, sync_target, mbind, M_bind, read, mret,
      M_ret; simpl.
    destruct (isNote item); [|by apply Hsync].
    cbv beta. change (world (step_opened job index item s)) with (world s).
    destruct (Zotero_Items_get C (parentID item) (world s));
      [by apply Hsync|].
    intros [= <- <-]. exists []. by rewrite app_nil_r. }
  destruct (sync_entry C job item (step_opened job index item s))
    as [[[]|cause] s1] eqn:Hrun;
    destruct (Hentry _ _ eq_refl) as (evs & Ht & Hb).
  - rewrite (perform_step_ok C job index item s s1) by done.
    intros [= <- <-]. eexists. split.
    { simpl. rewrite Ht; simpl. rewrite <- !app_assoc. reflexivity. }
    simpl. by rewrite List.filter_app, app_nil_r.
  - rewrite (perform_step_throw C job index item s cause s1) by done.
    intros [= <- <-]. eexists. split.
    { rewrite Ht; simpl. rewrite <- !app_assoc. reflexivity. }
    done.
Qed.

(** X16. A batch that holds an item and then one of its notes syncs the
    item twice: after the turn of the item has returned, the turn of
    the note calls the property builder for the item again (and never
    for the note), so the builder is called twice for the same item. *)
Theorem X16_item_and_its_note_sync_the_item_twice job parent note s s1 :
  items job = [parent; note] →
  isNote parent = false →
  isNote note = true →
  perform_step C job 0 parent s = (Ok tt, s1) →
  Zotero_Items_get C (parentID note) (world s1) = Some parent →
  map event_item (List.filter is_build (emitted s (perform C job s).2))
  = [Some parent; Some parent].
Proof.
  intros Hitems Hparent Hnote Hstep Hget.
  unfold perform. rewrite Hitems.
  rewrite (perform_from_ok C job 0 parent [note] s s1) by done.
  simpl. unfold mbind, M_bind.
  destruct (perform_step_builds _ _ _ _ _ _ Hstep) as (evs1 & Ht1 & Hb1).
  unfold sync_target in Hb1. rewrite Hparent in Hb1.
  destruct (perform_step C job 1 note s1) as [r s2] eqn:Hstep2.
  destruct (perform_step_builds _ _ _ _ _ _ Hstep2) as (evs2 & Ht2 & Hb2).
  unfold sync_target in Hb2. rewrite Hnote, Hget in Hb2.
  assert (Hfinal : emitted s s2 = evs1 ++ evs2).
  { unfold emitted. by rewrite Ht2, Ht1, <- app_assoc, drop_app_length. }
  destruct r as [[]|e]; simpl;
    by rewrite Hfinal, List.filter_app, map_app, Hb1, Hb2.
Qed.

(** The items built in a batch of regular items are the entries whose
    turn has started, in order. *)
Lemma perform_from_builds_regular job entries index s r s' :
  Forall (λ entry, isNote entry = false) entries →
  perform_from C job index entries s = (r, s') →
  ∃ evs,
    trace s' = trace s ++ evs
    ∧ map event_item (List.filter is_build evs)
      = map Some (take (length (omap text_step evs)) entries).
Proof.
  intros Hregular. revert index s.
  induction Hregular as [|item rest Hitem _ IH]; intros index s; simpl.
  - intros [= <- <-]. exists []. by rewrite app_nil_r.
  - unfold mbind, M_bind.
    destruct (perform_step C job index item s) as [r1 s1] eqn:Hstep.
    destruct (perform_step_builds _ _ _ _ _ _ Hstep) as (evs1 & Ht1 & Hb1).
    unfold sync_target in Hb1. rewrite Hitem in Hb1.
    destruct (perform_step_trace _ _ _ _ _ _ Hstep) as (calls & Hcalls & Ht1' & _).
    destruct (item_calls_no_steps _ Hcalls) as (Htext & _ & _).
    assert (Hsteps : omap text_step evs1 = [index + 1]).
    { rewrite Ht1 in Ht1'. apply app_inv_head in Ht1'. rewrite Ht1'.
      rewrite !omap_app, Htext; simpl. by destruct r1. }
    destruct r1 as [[]|e].
    + intros Hrest. destruct (IH _ _ Hrest) as (evs2 & Ht2 & Hb2).
      exists (evs1 ++ evs2). split; [by rewrite Ht2, Ht1, app_assoc|].
      rewrite List.filter_app, map_app, omap_app, Hb1, Hb2, Hsteps.
      done.
    + intros [= <- <-]. exists evs1. split; [done|].
      by rewrite Hb1, Hsteps.
Qed.

(** X17. In a batch of regular items the property builder is called
    once for every entry whose turn has started, in the order of the
    batch, and for no other item: so once for each entry of a batch
    that returns, and up to the failing entry, included, otherwise. *)
Theorem X17_regular_batch_builds_each_started_entry_once job s :
  Forall (λ entry, isNote entry = false) (items job) →
  let evs := emitted s (perform C job s).2 in
  map event_item (List.filter is_build evs)
  = map Some (take (length (omap text_step evs)) (items job))
  ∧ ((perform C job s).1 = Ok tt →
     map event_item (List.filter is_build evs) = map Some (items job)).
Proof.
  intros Hregular; simpl. unfold perform.
  destruct (perform_from C job 0 (items job) s) as [r s'] eqn:Hrun.
  destruct (perform_from_builds_regular _ _ _ _ _ _ Hregular Hrun)
    as (evs & Ht & Hb).
  destruct (perform_from_trace _ _ _ _ _ _ Hrun) as (evs' & Ht' & _ & Hr).
  rewrite Ht in Ht'. apply app_inv_head in Ht'. subst evs'.
  simpl. unfold emitted. rewrite Ht, drop_app_length.
  split; [done|]. intros ->. destruct Hr as [Htext _].
  by rewrite Hb, Htext, length_seq, firstn_all.
Qed.

(** ** The note text and the notes that resolve *)

(** X18. The note text depends on the note ids only through the notes
    they resolve to: two listings that resolve to the same notes, in
    the same order, give the same text, however many ids that do not
    resolve stand among them. *)
Theorem X18_note_text_depends_on_resolved_notes w (ids1 ids2 : list Z)
    (text : string) :
  resolved_notes C w ids1 = resolved_notes C w ids2 →
  collect_notes C w ids1 text = collect_notes C w ids2 text.
Proof. intros Hsame. by rewrite !collect_notes_spec, Hsame. Qed.

End Coverage.

(** * The job at work in the small world *)

Section Runs.

Import Sim.

Local Open Scope Z_scope.

Example strip_tags_hello :
  strip_tags false "<p>Hello <b>you</b></p>" = "Hello you".
Proof. reflexivity. Qed.

(** The notes 10 and 12 of item 1 resolve, the note 11 does not. *)
Example note_text_itemA :
  note_text host live_world itemA
  = "Hello" +:+ note_separator +:+ "World" +:+ note_separator.
Proof. by vm_compute. Qed.

(** A stored page id whose page is still there: one update, no create. *)
Example live_upsert_updates :
  List.filter is_page_call (trace live_sync.2) = [EvPagesUpdate "p1" "1:"].
Proof. by vm_compute. Qed.

(** No stored page id: one create, no update. *)
Example blind_upsert_creates :
  List.filter is_page_call (trace blind_sync.2) = [EvPagesCreate "db" "2:"].
Proof. by vm_compute. Qed.

(** Item 1 has the stored page id p1, which the workspace no longer has:
    the update fails with object-not-found and one create follows. *)
Lemma C1_witness :
  getNotionPageID host itemA stale_world = Some "p1"
  ∧ pages_update host "p1" "1:" stale_world
    = (Throw (JsError not_found_error), stale_world)
  ∧ List.filter is_page_call (emitted (start stale_world) stale_upsert.2)
    = [EvPagesUpdate "p1" "1:"; EvPagesCreate "db" "1:"].
Proof.
  split; [reflexivity|]. split; [reflexivity|].
  exact (proj1 (C1_update_first_create_iff_not_found host (job [itemA]) itemA
                  (start stale_world) "p1" "1:" stale_world
                  (Throw (JsError not_found_error)) stale_world
                  eq_refl ltac:(discriminate) eq_refl eq_refl)).
Defined.

(** The three items of the library are synced in a world whose property
    builder fails on item 2: item 1 is synced in full, the failure is
    reported for item 2, and nothing is recorded for item 3. *)
Lemma C2_witness :
  faulty_batch.1 = Ok tt
  ∧ last (trace faulty_batch.2)
    = Some (EvFail "Error: cannot build properties" (Some itemB))
  ∧ List.filter is_build (trace faulty_batch.2)
    = [EvBuildProperties itemA (Some (note_text host faulty_world itemA));
       EvBuildProperties itemB (Some "")]
  ∧ elements (tags (world faulty_batch.2)) = [1].
Proof.
  unfold faulty_batch.
  set (s := start faulty_world).
  set (entries := [itemA; itemB; itemC]).
  set (job := prepared faulty_world entries).
  set (s0 := (prepareSyncJob host entries
                (advance s (world s) [EvNewProgressWindow 3])).2).
  set (sA := (sync_entry host job itemA (step_opened job 0 itemA s0)).2).
  set (sB := (sync_entry host job itemB
                (step_opened job 1 itemB (step_closed 0 sA))).2).
  destruct (C2_batch_stops_at_failing_item host [1; 2; 3] itemA itemB itemC
              s job s0 sA (new_Error "cannot build properties") sB)
    as (_ & _ & Hrun & _);
    [by vm_compute..|].
  rewrite Hrun. by vm_compute.
Defined.


(** The note 10 has the parent 1, which resolves: its turn is the sync
    of item 1.  The note 20 has the parent 99, which does not: its turn
    does nothing. *)
Lemma C4_witness :
  List.filter is_build
    (emitted (start live_world)
       (sync_entry host (job [note10]) note10 (start live_world)).2)
  = [EvBuildProperties itemA (Some (note_text host live_world itemA))]
  ∧ sync_entry host (job [orphan]) orphan (start live_world)
    = (Ok tt, start live_world).
Proof.
  split.
  - exact (proj1 (proj2 (proj1
             (C4_note_entry_syncs_parent_or_nothing host (job [note10])
                note10 0%nat (start live_world) eq_refl)
             itemA eq_refl))).
  - exact (proj1 (proj2
             (C4_note_entry_syncs_parent_or_nothing host (job [orphan])
                orphan 0%nat (start live_world) eq_refl)
             eq_refl)).
Defined.

(** Every update is refused with a rate-limit error: the upsert of item
    1 throws it and sends no create. *)
Lemma C7_witness :
  isNotionErrorWithCode host (JsError rate_limited) ObjectNotFound = false
  ∧ limited_upsert.1 = Throw (JsError rate_limited)
  ∧ List.filter is_page_call (trace limited_upsert.2)
    = [EvPagesUpdate "p1" "1:"].
Proof.
  split; [reflexivity|].
  destruct (C7_other_update_error_propagates host (job [itemA]) itemA
              (start limited_world) "p1" "1:" limited_world
              (JsError rate_limited) limited_world eq_refl ltac:(discriminate) eq_refl eq_refl
              eq_refl) as [Hrun _].
  unfold limited_upsert. by rewrite Hrun.
Defined.

(** The quick-copy preference is the string mla in one world, the empty
    string in another and a number in a third. *)
Lemma C8_witness :
  getCitationFormat host live_world = "mla"
  ∧ getCitationFormat host limited_world = APA_STYLE host
  ∧ getCitationFormat host blind_world = APA_STYLE host.
Proof.
  split; [|split].
  - apply (proj1 (C8_citation_format host live_world) "mla");
      [reflexivity | discriminate].
  - apply (proj1 (proj2 (C8_citation_format host limited_world))).
    by intros format [= <-].
  - apply (proj1 (proj2 (C8_citation_format host blind_world))).
    by intros format [=].
Defined.

(** Without the read-content capability the sync of item 2 throws, and
    item 2 carries the tag all the same. *)
Lemma C9_witness :
  blind_sync.1 = Throw (new_Error read_capability_message)
  ∧ elements (tags (world blind_sync.2)) = [2].
Proof.
  unfold blind_sync.
  set (s := start blind_world).
  set (s1 := (saveItemToDatabase host (job [itemB]) itemB s).2).
  destruct (C9_tag_written_before_capability_error host (job [itemB]) itemB s
              (response blind_world "page0") s1
              (set_tags (world s1) {[2]}))
    as (Hrun & _); [by vm_compute..|].
  rewrite Hrun. by vm_compute.
Defined.

(** Item 2 has no note and a note field left from before: the field is
    emptied.  The note id 11 of item 1 does not resolve: the text is the
    one of the ids 10 and 12. *)
Lemma C10_witness :
  zotero_note left_over !! 2 = Some "left over"
  ∧ zotero_note
      (with_note left_over itemB (note_text host (world left_over) itemB))
      !! 2 = Some ""
  ∧ collect_notes host live_world [10; 11; 12] ""
    = collect_notes host live_world [10; 12] "".
Proof.
  destruct (C10_note_field_assigned_before_upsert host (job [itemB]) itemB
              left_over)
    as (_ & _ & _ & _ & Hempty & Hskip).
  split; [reflexivity|]. split.
  - apply Hempty; [reflexivity | by right].
  - exact (Hskip [10] 11 [12] "" eq_refl).
Defined.

(** C5, as stated, fails on an item with a single note: the note field
    holds the text of the note followed by the separator, while the
    text of the notes with the separator between them is the text of the
    note alone. *)
Lemma C5_counterexample :
  getNotes itemD = [10]
  ∧ zotero_note single_note_sync.2 !! item_id itemD
    = Some ("Hello" +:+ note_separator)
  ∧ separated_note_text host live_world itemD = "Hello"
  ∧ zotero_note single_note_sync.2 !! item_id itemD
    ≠ Some (separated_note_text host live_world itemD).
Proof.
  split; [done|]. split; [by vm_compute|]. split; [by vm_compute|].
  vm_compute. by intros [=].
Qed.

(** ** Further runs *)

(** Item 2 keeps an empty page id: it is created. *)
Lemma X2_witness :
  getNotionPageID host itemB empty_id_world = Some ""
  ∧ List.filter is_page_call
      (emitted (start empty_id_world)
         (saveItemToDatabase host (job [itemB]) itemB
            (start empty_id_world)).2)
    = [EvPagesCreate "db" "2:"].
Proof.
  split; [reflexivity|].
  exact (proj2 (X2_no_page_id_creates host (job [itemB]) itemB
                  (start empty_id_world) "2:" empty_id_world
                  eq_refl eq_refl)).
Defined.

(** The property builder fails on item 2: nothing is sent. *)
Lemma X3_witness :
  List.filter is_page_call
    (emitted (start faulty_world)
       (saveItemToDatabase host (job [itemB]) itemB (start faulty_world)).2)
  = [].
Proof.
  exact (proj2 (X3_builder_failure_sends_nothing host (job [itemB]) itemB
                  (start faulty_world) (new_Error "cannot build properties")
                  faulty_world eq_refl)).
Defined.

(** The update of item 1 is refused: item 1 is not tagged. *)
Lemma X4_witness :
  (syncRegularItem host (job [itemA]) itemA (start limited_world)).1
  = Throw (JsError rate_limited)
  ∧ elements
      (tags (world (syncRegularItem host (job [itemA]) itemA
                      (start limited_world)).2)) = [].
Proof.
  destruct (X4_failed_upsert_is_not_tagged host (job [itemA]) itemA
              (start limited_world) (JsError rate_limited) limited_upsert.2)
    as (Hrun & _); [by vm_compute|].
  rewrite Hrun. by vm_compute.
Defined.

(** The tag of item 1 cannot be written: no back-link is saved, although
    the page was updated and the response is a full page. *)
Lemma X5_witness :
  (syncRegularItem locked_host (job [itemA]) itemA (start live_world)).1
  = Throw (new_Error "item is read-only")
  ∧ List.filter is_link
      (emitted (start live_world)
         (syncRegularItem locked_host (job [itemA]) itemA
            (start live_world)).2) = [].
Proof.
  destruct (X5_failed_tag_saves_no_link locked_host (job [itemA]) itemA
              (start live_world) (response live_world "p1")
              (saveItemToDatabase locked_host (job [itemA]) itemA
                 (start live_world)).2
              (new_Error "item is read-only")
              (world (saveItemToDatabase locked_host (job [itemA]) itemA
                        (start live_world)).2))
    as (Hrun & Hlinks); [by vm_compute..|].
  split; [by rewrite Hrun|exact Hlinks].
Defined.

(** The sync of item 1 returns: its last call saves the back-link. *)
Lemma X6_witness :
  ∃ appURL,
    last (emitted (start live_world) live_sync.2)
    = Some (EvSaveNotionLinkAttachment itemA appURL).
Proof.
  destruct (X6_successful_sync_tags_and_links host (job [itemA]) itemA
              (start live_world) live_sync.2)
    as (calls & response & _ & _ & _ & Hemitted); [by vm_compute|].
  eexists. rewrite Hemitted, app_comm_cons, last_app. reflexivity.
Defined.

(** The sync of item 1 leaves the note field of item 2. *)
Lemma X7_witness :
  zotero_note (syncItemAndNotes host (job [itemA]) itemA left_over).2 !! 2
  = Some "left over".
Proof.
  rewrite (X7_sync_leaves_other_note_fields host (job [itemA]) itemA
             left_over 2) by done.
  reflexivity.
Defined.

(** The batch of the items 1, 2 and 3 throws at item 2, the second
    entry. *)
Lemma X9_witness :
  ∃ cause item k,
    ItemSyncError (new_Error "cannot build properties") itemB
    = ItemSyncError cause item
    ∧ [itemA; itemB; itemC] !! k = Some item
    ∧ last (omap text_step
              (emitted (start faulty_world)
                 (perform host (job [itemA; itemB; itemC])
                    (start faulty_world)).2)) = Some (S k).
Proof.
  apply (X9_perform_throws_item_errors_only host
           (job [itemA; itemB; itemC]) (start faulty_world)).
  by vm_compute.
Defined.

(** The workspace refuses the retrieval of the database: the failure is
    reported without an item. *)
Lemma X13_witness :
  List.filter is_item_call
    (emitted (start live_world)
       (performSyncJob offline_host [1; 2; 3] (start live_world)).2) = []
  ∧ last (emitted (start live_world)
            (performSyncJob offline_host [1; 2; 3] (start live_world)).2)
    = Some (EvFail "APIResponseError: API token is invalid." None).
Proof.
  destruct (X13_setup_failure_touches_no_item offline_host [1; 2; 3]
              (start live_world) unauthorized
              (advance (start live_world) live_world
                 [EvNewProgressWindow 3; EvGetNotionClient;
                  EvDatabasesRetrieve "db"]))
    as (Hnone & _ & Hlast); [by vm_compute..|].
  split; [exact Hnone|exact Hlast].
Defined.

(** The ids 98 and 99 are not in the library. *)
Lemma X14_witness :
  performSyncJob host [98; 99] (start live_world) = (Ok tt, start live_world).
Proof.
  apply X14_unresolved_ids_do_nothing.
  intros itemID Hin.
  repeat (apply elem_of_cons in Hin as [->|Hin]; [reflexivity|]).
  by apply elem_of_nil in Hin.
Defined.

(** The quick-copy preference is the empty string. *)
Lemma X15_witness :
  Zotero_Prefs_get_quickCopy host limited_world = PrefString ""
  ∧ getCitationFormat host limited_world ≠ "".
Proof.
  split; [reflexivity|].
  apply X15_citation_format_is_not_empty. discriminate.
Defined.

(** Item 1 and its note 10 in one batch. *)
Lemma X16_witness :
  map event_item
    (List.filter is_build
       (emitted (start live_world)
          (perform host (job [itemA; note10]) (start live_world)).2))
  = [Some itemA; Some itemA].
Proof.
  apply (X16_item_and_its_note_sync_the_item_twice host
           (job [itemA; note10]) itemA note10 (start live_world)
           (perform_step host (job [itemA; note10]) 0%nat itemA
              (start live_world)).2);
    by vm_compute.
Defined.

(** The items 1, 2 and 3 with a builder that fails on item 2: the
    builder is called for the items 1 and 2. *)
Lemma X17_witness :
  map event_item
    (List.filter is_build
       (emitted (start faulty_world)
          (perform host (job [itemA; itemB; itemC]) (start faulty_world)).2))
  = [Some itemA; Some itemB].
Proof.
  destruct (X17_regular_batch_builds_each_started_entry_once host
              (job [itemA; itemB; itemC]) (start faulty_world))
    as [Hbuilt _]; [by repeat constructor|].
  rewrite Hbuilt. by vm_compute.
Defined.

(** The ids 10, 11, 12 and the ids 98, 10, 12, 99 resolve to the notes
    10 and 12. *)
Lemma X18_witness :
  resolved_notes host live_world [10; 11; 12] = [note10; note12]
  ∧ collect_notes host live_world [10; 11; 12] "x"
    = collect_notes host live_world [98; 10; 12; 99] "x".
Proof.
  split; [reflexivity|].
  by apply X18_note_text_depends_on_resolved_notes.
Defined.

(** The batch with a failing builder ends with one verdict. *)
Lemma X11_witness :
  faulty_batch.1 = Ok tt
  ∧ ∃ evs verdict,
      emitted (start faulty_world) faulty_batch.2
      = EvNewProgressWindow 3 :: evs ++ [verdict]
      ∧ is_verdict verdict = true
      ∧ Forall (λ ev, is_verdict ev = false ∧ is_window ev = false) evs.
Proof.
  destruct (X11_job_never_throws_and_ends_with_one_verdict host [1; 2; 3]
              (start faulty_world)) as [Hok Hshape].
  split; [exact Hok|]. by apply Hshape.
Defined.

(** C6, as stated, fails at the call to the host: on the empty set the
    job does ask [Zotero.Items.get] to resolve items, once and with the
    empty list of ids, before it tests the number of items. *)
Lemma C6_counterexample :
  (performSyncJob_logged host [] (start live_world, [])).2.2 = [ReadItems []]
  ∧ (performSyncJob_logged host [] (start live_world, [])).2.2 ≠ [].
Proof. split; [reflexivity|discriminate]. Qed.

End Runs.
